(** * neu3: realtime progress tracking (static/js/websocket.js, static/js/analysis.js)

    A shallow embedding of the browser-side connection manager
    ([WebSocketManager], websocket.js) and of the analysis page script
    (analysis.js), with the properties of the specification stated over it.

    Conventions.
    - A JavaScript object with mutable fields is a record; a method is a
      function from the state before the call to the state after it (and the
      returned value, when the method returns one).
    - Everything the scripts act on but do not own (the messages written to
      the socket, the status indicator, the console, the DOM elements, the
      requests sent with [fetch]) is part of the state, as a log or as an
      optional element: [document.getElementById] returns [null] for a page
      without the element, which is [None] here.
    - The clock ([new Date()]) is an argument [now], in milliseconds; so is
      what the Socket.IO client knows on its own (whether a socket is
      connected at the moment it is closed). *)

From stdpp Require Import gmap strings list pretty.
From Stdlib Require Import ZArith SpecFloat Ascii.

Open Scope string_scope.
Open Scope list_scope.

(** ** websocket.js *)

Module WebSocket.

(** Payload handed to the locally registered handlers ([triggerEvent]'s
    [data], [null] by default). *)
Inductive Payload : Type :=
  | PNull
  | PReason (reason : string)
  | PError (error : string)
  | PAttempts (attempts : nat)
  | PServer (analysis_id : string) (body : string).

(** Messages the client writes with [this.socket.emit]. *)
Inductive ClientMsg : Type :=
  | join_analysis (analysis_id : string)
  | leave_analysis (analysis_id : string)
  | pong
  | other_msg (event : string) (data : Payload).

#[global] Instance Payload_eq_dec : EqDecision Payload.
Proof. solve_decision. Defined.
#[global] Instance ClientMsg_eq_dec : EqDecision ClientMsg.
Proof. solve_decision. Defined.

(** The options object passed to [io(...)] in [initialize]. *)
Record IoOptions : Type := {
  transports : list string;
  timeout : Z;
  reconnection : bool;
  reconnectionAttempts : nat;
  reconnectionDelay : Z;
  reconnectionDelayMax : Z
}.

(** A socket returned by [io]; [sock_open] is cleared by [socket.disconnect()]
    and set by [socket.connect()]. *)
Record Socket : Type := {
  sock_options : IoOptions;
  sock_open : bool
}.

(** A handler is a function object: the registry holds references, and
    [indexOf] compares references. *)
Definition HandlerRef : Type := nat.

(** The fields of a [WebSocketManager] instance, as the constructor lists
    them. [eventHandlers] is a [Map] from event name to an array of handlers;
    [analysisRooms] is a [Set], which iterates in insertion order. *)
Record WebSocketManager : Type := {
  socket : option Socket;
  reconnectAttempts : nat;
  maxReconnectAttempts : nat;
  reconnectInterval : Z;
  isConnected : bool;
  eventHandlers : gmap string (list HandlerRef);
  analysisRooms : list string
}.

Definition constructor : WebSocketManager := {|
  socket := None;
  reconnectAttempts := 0;
  maxReconnectAttempts := 5;
  reconnectInterval := 5000%Z;
  isConnected := false;
  eventHandlers := ∅;
  analysisRooms := []
|}.

(** [Set.prototype.add], [delete] and [clear] on an insertion-ordered set. *)
Definition set_add (x : string) (s : list string) : list string :=
  if decide (x ∈ s) then s else s ++ [x].

Definition set_delete (x : string) (s : list string) : list string :=
  filter (λ y, y ≠ x) s.

(** What a handler call ends with. *)
Inductive Outcome : Type :=
  | Returned
  | Threw (error : string).

Section Manager.

(** Whatever the registered handlers act on besides the manager. *)
Context {App : Type}.

(** The manager together with what its methods reach: the messages emitted on
    its sockets (oldest first), the calls of [showConnectionStatus] as
    (message, type), the arguments of [console.error] in [triggerEvent], and
    whether the Socket.IO global [io] is defined. *)
Record World : Type := {
  wsManager : WebSocketManager;
  io_defined : bool;
  sent : list ClientMsg;
  status_shown : list (string * string);
  console_errors : list string;
  app : App
}.

Definition with_manager (f : WebSocketManager → WebSocketManager) (w : World) : World :=
  {| wsManager := f (wsManager w); io_defined := io_defined w; sent := sent w;
     status_shown := status_shown w; console_errors := console_errors w;
     app := app w |}.

Definition socket_emit (m : ClientMsg) (w : World) : World :=
  {| wsManager := wsManager w; io_defined := io_defined w; sent := sent w ++ [m];
     status_shown := status_shown w; console_errors := console_errors w;
     app := app w |}.

(** [showConnectionStatus(message, type)]: the indicator is created when it
    is missing and then shows [message] in the style of [type]; the log keeps
    every message shown. *)
Definition showConnectionStatus (message type : string) (w : World) : World :=
  {| wsManager := wsManager w; io_defined := io_defined w; sent := sent w;
     status_shown := status_shown w ++ [(message, type)];
     console_errors := console_errors w; app := app w |}.

Definition console_error (e : string) (w : World) : World :=
  {| wsManager := wsManager w; io_defined := io_defined w; sent := sent w;
     status_shown := status_shown w; console_errors := console_errors w ++ [e];
     app := app w |}.

Definition set_socket (s : option Socket) (m : WebSocketManager) : WebSocketManager :=
  {| socket := s; reconnectAttempts := reconnectAttempts m;
     maxReconnectAttempts := maxReconnectAttempts m;
     reconnectInterval := reconnectInterval m; isConnected := isConnected m;
     eventHandlers := eventHandlers m; analysisRooms := analysisRooms m |}.

Definition set_reconnectAttempts (n : nat) (m : WebSocketManager) : WebSocketManager :=
  {| socket := socket m; reconnectAttempts := n;
     maxReconnectAttempts := maxReconnectAttempts m;
     reconnectInterval := reconnectInterval m; isConnected := isConnected m;
     eventHandlers := eventHandlers m; analysisRooms := analysisRooms m |}.

Definition set_isConnected (b : bool) (m : WebSocketManager) : WebSocketManager :=
  {| socket := socket m; reconnectAttempts := reconnectAttempts m;
     maxReconnectAttempts := maxReconnectAttempts m;
     reconnectInterval := reconnectInterval m; isConnected := b;
     eventHandlers := eventHandlers m; analysisRooms := analysisRooms m |}.

Definition set_eventHandlers (h : gmap string (list HandlerRef)) (m : WebSocketManager)
  : WebSocketManager :=
  {| socket := socket m; reconnectAttempts := reconnectAttempts m;
     maxReconnectAttempts := maxReconnectAttempts m;
     reconnectInterval := reconnectInterval m; isConnected := isConnected m;
     eventHandlers := h; analysisRooms := analysisRooms m |}.

Definition set_analysisRooms (r : list string) (m : WebSocketManager) : WebSocketManager :=
  {| socket := socket m; reconnectAttempts := reconnectAttempts m;
     maxReconnectAttempts := maxReconnectAttempts m;
     reconnectInterval := reconnectInterval m; isConnected := isConnected m;
     eventHandlers := eventHandlers m; analysisRooms := r |}.

(** [initialize()]: without [io] nothing happens and the result is [false];
    otherwise a socket is created with the reconnection options below and the
    listeners of [setupEventHandlers] (the [on_...] functions further down)
    are attached to it. [io(...)] is taken not to throw. *)
Definition io_options (m : WebSocketManager) : IoOptions := {|
  transports := ["websocket"; "polling"];
  timeout := 10000%Z;
  reconnection := true;
  reconnectionAttempts := maxReconnectAttempts m;
  reconnectionDelay := 1000%Z;
  reconnectionDelayMax := 5000%Z
|}.

Definition initialize (w : World) : World * bool :=
  if io_defined w then
    (with_manager
       (λ m, set_socket (Some {| sock_options := io_options m; sock_open := true |}) m) w,
     true)
  else (w, false).

(** [joinAnalysis(analysisId)] *)
Definition joinAnalysis (analysisId : string) (w : World) : World * bool :=
  match socket (wsManager w), isConnected (wsManager w) with
  | Some _, true =>
      (with_manager (λ m, set_analysisRooms (set_add analysisId (analysisRooms m)) m)
         (socket_emit (join_analysis analysisId) w),
       true)
  | _, _ => (w, false)
  end.

(** [leaveAnalysis(analysisId)] *)
Definition leaveAnalysis (analysisId : string) (w : World) : World * bool :=
  match socket (wsManager w) with
  | Some _ =>
      (with_manager (λ m, set_analysisRooms (set_delete analysisId (analysisRooms m)) m)
         (socket_emit (leave_analysis analysisId) w),
       true)
  | None => (w, false)
  end.

(** [rejoinAnalysisRooms()]: one [join_analysis] per retained room, in the
    set's order. With rooms to replay and no socket, [this.socket.emit] is a
    [TypeError]: [None]. *)
Definition rejoinAnalysisRooms (w : World) : option World :=
  match analysisRooms (wsManager w), socket (wsManager w) with
  | [], _ => Some w
  | _ :: _, None => None
  | rooms, Some _ => Some (foldl (λ w' r, socket_emit (join_analysis r) w') w rooms)
  end.

(** [on(event, handler)] *)
Definition on (event : string) (handler : HandlerRef) (m : WebSocketManager)
  : WebSocketManager :=
  let hs := match eventHandlers m !! event with
            | None => []
            | Some l => l
            end in
  set_eventHandlers (<[event := hs ++ [handler]]> (eventHandlers m)) m.

(** [Array.prototype.indexOf]: the first position holding the reference. *)
Fixpoint indexOf (handler : HandlerRef) (l : list HandlerRef) : option nat :=
  match l with
  | [] => None
  | h :: t => if decide (h = handler) then Some 0 else S <$> indexOf handler t
  end.

(** [off(event, handler)]: [splice(index, 1)] at the first position. *)
Definition off (event : string) (handler : HandlerRef) (m : WebSocketManager)
  : WebSocketManager :=
  match eventHandlers m !! event with
  | None => m
  | Some hs =>
      match indexOf handler hs with
      | Some index => set_eventHandlers (<[event := delete index hs]> (eventHandlers m)) m
      | None => m
      end
  end.

(** The handlers registered for an event, none when the map has no entry. *)
Definition handlers_of (event : string) (m : WebSocketManager) : list HandlerRef :=
  default [] (eventHandlers m !! event).

(** The code behind each handler reference: a call may change the world,
    the manager included (a handler may call [on], [off], [joinAnalysis],
    ...), and returns or throws. Handlers reach the registry through the
    manager's methods, which never replace the array kept for an event, so
    the array [triggerEvent] iterates is the one the registry holds. *)
Definition Code : Type := HandlerRef → Payload → World → World * Outcome.

(** [handlers.forEach(handler => { try { handler(data) } catch ... })].
    [forEach] fixes the number of positions when it starts and reads each
    position from the array as it is at that moment: a position that no
    longer exists is skipped. The result lists the calls made, in order. *)
Fixpoint forEach_handlers (code : Code) (event : string) (data : Payload)
    (k n : nat) (w : World) : World * list (HandlerRef * Outcome) :=
  match n with
  | 0 => (w, [])
  | S n' =>
      match handlers_of event (wsManager w) !! k with
      | None => forEach_handlers code event data (S k) n' w
      | Some h =>
          let '(w1, r) := code h data w in
          let w2 := match r with
                    | Returned => w1
                    | Threw e => console_error e w1
                    end in
          let '(w3, calls) := forEach_handlers code event data (S k) n' w2 in
          (w3, (h, r) :: calls)
      end
  end.

(** [triggerEvent(event, data = null)] *)
Definition triggerEvent (code : Code) (event : string) (data : Payload) (w : World)
  : World * list (HandlerRef * Outcome) :=
  match eventHandlers (wsManager w) !! event with
  | None => (w, [])
  | Some hs => forEach_handlers code event data 0 (length hs) w
  end.

(** [emit(event, data = null)] *)
Definition emit (event : string) (data : Payload) (w : World) : World * bool :=
  match socket (wsManager w), isConnected (wsManager w) with
  | Some _, true => (socket_emit (other_msg event data) w, true)
  | _, _ => (w, false)
  end.

(** [reconnect()] *)
Definition reconnect (w : World) : World :=
  match socket (wsManager w) with
  | Some s =>
      with_manager
        (set_socket (Some {| sock_options := sock_options s; sock_open := true |})) w
  | None => (initialize w).1
  end.

(** The listeners of [setupEventHandlers], one function per socket event. *)

Definition on_connect (code : Code) (w : World) : World * list (HandlerRef * Outcome) :=
  let w1 := with_manager (λ m, set_reconnectAttempts 0 (set_isConnected true m)) w in
  let w2 := showConnectionStatus "Connected to server" "success" w1 in
  match rejoinAnalysisRooms w2 with
  | None => (w2, [])
  | Some w3 => triggerEvent code "ws_connected" PNull w3
  end.

Definition on_disconnect (code : Code) (reason : string) (w : World)
  : World * list (HandlerRef * Outcome) :=
  let w1 := with_manager (set_isConnected false) w in
  let w2 := showConnectionStatus "Disconnected from server" "warning" w1 in
  triggerEvent code "ws_disconnected" (PReason reason) w2.

Definition on_connect_error (code : Code) (error : string) (w : World)
  : World * list (HandlerRef * Outcome) :=
  triggerEvent code "ws_error" (PError error)
    (showConnectionStatus "Connection error" "error" w).

Definition on_reconnect (code : Code) (attemptNumber : nat) (w : World)
  : World * list (HandlerRef * Outcome) :=
  triggerEvent code "ws_reconnected" (PAttempts attemptNumber)
    (showConnectionStatus "Reconnected to server" "success" w).

Definition on_reconnect_error (error : string) (w : World) : World :=
  let w1 := with_manager (λ m, set_reconnectAttempts (S (reconnectAttempts m)) m) w in
  if decide (maxReconnectAttempts (wsManager w1) ≤ reconnectAttempts (wsManager w1))%nat
  then showConnectionStatus "Failed to reconnect" "error" w1
  else w1.

(** [disconnect()]. [this.socket.disconnect()] closes the socket, and
    Socket.IO reports the closure of a socket that was connected before the
    call returns: it runs the [disconnect] listener with the reason
    "io client disconnect". For a socket that was not connected it reports
    nothing. [socket_connected] is the [connected] property of the socket
    when the call is made. The three fields are reset afterwards, whatever
    the [ws_disconnected] handlers did. *)
Definition disconnect (code : Code) (socket_connected : bool) (w : World) : World :=
  match socket (wsManager w) with
  | Some _ =>
      let w1 := if socket_connected
                then (on_disconnect code "io client disconnect" w).1
                else w in
      with_manager
        (λ m, set_analysisRooms [] (set_isConnected false (set_socket None m))) w1
  | None => w
  end.

(** The listeners for [analysis_progress], [analysis_complete] and
    [analysis_error] pass the event on under the same name. *)
Definition on_analysis_event (code : Code) (event : string) (data : Payload) (w : World)
  : World * list (HandlerRef * Outcome) :=
  triggerEvent code event data w.

(** The [ping] listener answers on the manager's socket, if it has one. *)
Definition on_ping (w : World) : World :=
  match socket (wsManager w) with
  | Some _ => socket_emit pong w
  | None => w
  end.

(** The number of times the failure notice was shown. *)
Definition failed_to_reconnect_shown (w : World) : nat :=
  length (filter (λ s, s = ("Failed to reconnect", "error")) (status_shown w)).

(** [n] reconnect-error events in a row. *)
Fixpoint reconnect_errors (errors : list string) (w : World) : World :=
  match errors with
  | [] => w
  | e :: rest => reconnect_errors rest (on_reconnect_error e w)
  end.

(** The handlers of a list called one after the other with [data], each
    inside its own [try]: an exception is logged and the next handler runs.
    This is the dispatch the specification describes; [triggerEvent] is
    compared with it below. *)
Fixpoint call_in_order (code : Code) (data : Payload) (hs : list HandlerRef) (w : World)
  : World * list (HandlerRef * Outcome) :=
  match hs with
  | [] => (w, [])
  | h :: rest =>
      let '(w1, r) := code h data w in
      let w2 := match r with
                | Returned => w1
                | Threw e => console_error e w1
                end in
      let '(w3, calls) := call_in_order code data rest w2 in
      (w3, (h, r) :: calls)
  end.

(** The state in which the [connect] listener finds the manager once it has
    marked the connection and shown the status, before the rooms are
    replayed. *)
Definition connected (w : World) : World :=
  showConnectionStatus "Connected to server" "success"
    (with_manager (λ m, set_reconnectAttempts 0 (set_isConnected true m)) w).

(** A handler that acts on the page only: it leaves the manager as it is,
    writes nothing to the socket and shows no connection status. *)
Definition quiet (code : Code) (h : HandlerRef) : Prop :=
  ∀ d w, wsManager (code h d w).1 = wsManager w
         ∧ sent (code h d w).1 = sent w
         ∧ status_shown (code h d w).1 = status_shown w.

(** [setupConnectionMonitoring()]: one handler for [ws_connected] and one
    for [ws_disconnected]. Both restyle the indicator in the navigation bar,
    when there is one, which is no part of the world here. *)
Definition setupConnectionMonitoring (connected_handler disconnected_handler : HandlerRef)
    (w : World) : World :=
  with_manager
    (λ m, on "ws_disconnected" disconnected_handler (on "ws_connected" connected_handler m))
    w.

Definition restyle_indicator (data : Payload) (w : World) : World * Outcome :=
  (w, Returned).

End Manager.

Arguments World : clear implicits.
Arguments Code : clear implicits.

(** The manager just constructed, on a page with or without Socket.IO. *)
Definition fresh (io : bool) : World unit :=
  {| wsManager := constructor; io_defined := io; sent := [];
     status_shown := []; console_errors := []; app := () |}.

(** *** Example states *)

(** The manager after [initialize()] on a page with Socket.IO, before the
    transport has connected. *)
Definition initialized : World unit := (initialize (fresh true)).1.

(** Handlers that leave the world alone; handler 1 throws. *)
Definition first_throws : Code unit :=
  λ h _ w, (w, if decide (h = 1) then Threw "boom" else Returned).

(** Handler 1 unregisters itself from event [tick], as a run-once handler
    does; the others do nothing. *)
Definition once : Code unit :=
  λ h _ w, (if decide (h = 1) then with_manager (off "tick" 1) w else w, Returned).

(** Three handlers registered for [tick], in the order 1, 2, 3. *)
Definition three_handlers : World unit :=
  with_manager (λ m, on "tick" 3 (on "tick" 2 (on "tick" 1 m))) initialized.

(** *** The manager as a state machine *)

Section Machine.

Context {App : Type}.

(** What can happen to a manager: a call of one of its methods, or an event
    of its socket reaching the listener that [setupEventHandlers] attached
    for it. *)
Inductive Action : Type :=
  | call_initialize
  | call_joinAnalysis (analysisId : string)
  | call_leaveAnalysis (analysisId : string)
  | call_on (event : string) (handler : HandlerRef)
  | call_off (event : string) (handler : HandlerRef)
  | call_emit (event : string) (data : Payload)
  | call_disconnect (socket_connected : bool)
  | call_reconnect
  | socket_connect
  | socket_disconnect (reason : string)
  | socket_connect_error (error : string)
  | socket_reconnect (attemptNumber : nat)
  | socket_reconnect_error (error : string)
  | socket_analysis (event : string) (data : Payload)
  | socket_ping.

Definition act (code : Code App) (a : Action) (w : World App) : World App :=
  match a with
  | call_initialize => (initialize w).1
  | call_joinAnalysis analysisId => (joinAnalysis analysisId w).1
  | call_leaveAnalysis analysisId => (leaveAnalysis analysisId w).1
  | call_on event handler => with_manager (on event handler) w
  | call_off event handler => with_manager (off event handler) w
  | call_emit event data => (emit event data w).1
  | call_disconnect socket_connected => disconnect code socket_connected w
  | call_reconnect => reconnect w
  | socket_connect => (on_connect code w).1
  | socket_disconnect reason => (on_disconnect code reason w).1
  | socket_connect_error error => (on_connect_error code error w).1
  | socket_reconnect attemptNumber => (on_reconnect code attemptNumber w).1
  | socket_reconnect_error error => on_reconnect_error error w
  | socket_analysis event data => (on_analysis_event code event data w).1
  | socket_ping => on_ping w
  end.

Fixpoint run (code : Code App) (actions : list Action) (w : World App) : World App :=
  match actions with
  | [] => w
  | a :: rest => run code rest (act code a w)
  end.

(** The retained set lists no room twice, and a manager without a socket
    retains no room. *)
Definition rooms_consistent (w : World App) : Prop :=
  NoDup (analysisRooms (wsManager w))
  ∧ (socket (wsManager w) = None → analysisRooms (wsManager w) = []).

(** [initializeWebSocket(analysisId)] of websocket.js. [handler] is the
    function object the call creates for [ws_connected]; its code is
    [join_when_connected]. *)
Definition initializeWebSocket (handler : HandlerRef) (analysisId : string)
    (w : World App) : World App :=
  let '(w1, ok) := initialize w in
  if ok then
    if isConnected (wsManager w1) then (joinAnalysis analysisId w1).1
    else with_manager (on "ws_connected" handler) w1
  else w1.

(** [() => { wsManager.joinAnalysis(analysisId); }] *)
Definition join_when_connected (analysisId : string) (data : Payload) (w : World App)
  : World App * Outcome :=
  ((joinAnalysis analysisId w).1, Returned).

(** The transport dropping and connecting again, once for each reason. *)
Definition reconnections (reasons : list string) : list Action :=
  concat ((λ reason, [socket_disconnect reason; socket_connect]) <$> reasons).

End Machine.


(** Handler 1 registers handler 9 for [tick] each time it runs; the others
    do nothing. *)
Definition registers_another : Code unit :=
  λ h _ w, (if decide (h = 1) then with_manager (on "tick" 9) w else w, Returned).

(** The handlers of a page that has run [setupConnectionMonitoring()] and
    [initializeWebSocket("job-1")]: handler 7 is the deferred join, the
    others restyle the indicator. *)
Definition page_handlers : Code unit :=
  λ h data w,
    if decide (h = 7) then join_when_connected "job-1" data w else restyle_indicator data w.

(** That page, before the transport has connected. *)
Definition loaded_page : World unit :=
  initializeWebSocket 7 "job-1" (setupConnectionMonitoring 1 2 (fresh true)).

(** The same page once the transport has connected: the deferred join has
    subscribed [job-1]. *)
Definition subscribed_page : World unit := (on_connect page_handlers loaded_page).1.

End WebSocket.

(** ** analysis.js *)

Module Analysis.

(** *** Strings

    A string is a sequence of characters with the codes 0 to 255. It stands
    for the JavaScript string that has these codes as its UTF-16 code units:
    a text in the Latin-1 range, which is what the messages and the step
    names of this page are written in. *)

(** [String.prototype.toLowerCase] on such a text. Its capital letters are
    A to Z (65 to 90) and U+00C0 to U+00DE without the multiplication sign
    U+00D7 (192 to 222 without 215); the small letter of each lies 32 places
    further, and every other character is left as it is. *)
Definition lower_char (c : ascii) : ascii :=
  let n := nat_of_ascii c in
  if ((65 <=? n) && (n <=? 90) || (192 <=? n) && (n <=? 222) && negb (n =? 215))%nat
  then ascii_of_nat (n + 32) else c.

Fixpoint toLowerCase (s : string) : string :=
  match s with
  | EmptyString => EmptyString
  | String c rest => String (lower_char c) (toLowerCase rest)
  end.

(** [s.includes(sub)] *)
Fixpoint includes (s sub : string) : bool :=
  if String.prefix sub s then true
  else match s with
       | EmptyString => false
       | String _ rest => includes rest sub
       end.

(** [s.replace('_', ' ')]: a string pattern replaces the first match only. *)
Fixpoint replace_underscore (s : string) : string :=
  match s with
  | EmptyString => EmptyString
  | String c rest =>
      if Ascii.eqb c "_"%char then String " "%char rest
      else String c (replace_underscore rest)
  end.

(** [n.toString().padStart(2, '0')] *)
Definition padStart2 (s : string) : string :=
  match String.length s with
  | 0 => "00"
  | 1 => "0" +:+ s
  | _ => s
  end.

(** [formatTime(seconds)] for a whole number of seconds: [Math.floor]
    rounds down and [%] takes the sign of the dividend. *)
Definition formatTime (seconds : Z) : string :=
  let mins := (seconds / 60)%Z in
  let secs := Z.rem seconds 60 in
  padStart2 (pretty mins) +:+ ":" +:+ padStart2 (pretty secs).

(** *** Numbers

    A JavaScript number is an IEEE 754 binary64 value; the time estimate is
    computed with the operations of [SpecFloat] at that format. *)

Definition prec : Z := 53.
Definition emax : Z := 1024.

(** The number nearest to an integer (ties to even). *)
Definition number_of_Z (z : Z) : spec_float :=
  match z with
  | Z0 => S754_zero false
  | Zpos p => binary_normalize prec emax (Zpos p) 0 false
  | Zneg p => binary_normalize prec emax (Zneg p) 0 true
  end.

(** [Math.floor] of a finite number, as an integer. *)
Definition Math_floor (x : spec_float) : Z :=
  match x with
  | S754_finite s m e =>
      let v := if s then Zneg m else Zpos m in
      if (0 <=? e)%Z then (v * 2 ^ e)%Z else (v / 2 ^ (- e))%Z
  | _ => 0%Z
  end.

(** *** The step catalog *)

Record StepConfig : Type := {
  name : string;
  description : string;
  duration : Z;
  progress : N
}.

(** [ANALYSIS_STEPS], in the order of the object literal. *)
Definition ANALYSIS_STEPS : list (string * StepConfig) := [
  ("market_research",
   {| name := "Market Research";
      description := "Comprehensive multi-source market intelligence gathering";
      duration := 600; progress := 10 |});
  ("avatar_analysis",
   {| name := "Avatar Psychology Analysis";
      description := "Deep psychological profiling of target audience";
      duration := 480; progress := 25 |});
  ("mental_drivers",
   {| name := "Mental Drivers Framework";
      description := "Custom psychological triggers and anchoring mechanisms";
      duration := 420; progress := 40 |});
  ("objection_analysis",
   {| name := "Objection Analysis";
      description := "Anti-objection engineering and counter-strategy development";
      duration := 360; progress := 55 |});
  ("provi_system",
   {| name := "Visual Proof System (PROVIs)";
      description := "Physical demonstration system for abstract concepts";
      duration := 480; progress := 70 |});
  ("prepitch_architecture",
   {| name := "Pre-Pitch Architecture";
      description := "Invisible persuasion sequence and psychological preparation";
      duration := 360; progress := 85 |});
  ("report_generation",
   {| name := "Report Generation";
      description := "Comprehensive analysis compilation and formatting";
      duration := 300; progress := 95 |});
  ("pdf_generation",
   {| name := "PDF Generation";
      description := "Professional document creation and formatting";
      duration := 120; progress := 100 |})
].

(** The configuration an object literal defines under a key. *)
Fixpoint lookup_step (key : string) (steps : list (string * StepConfig))
  : option StepConfig :=
  match steps with
  | [] => None
  | (k, config) :: rest => if decide (k = key) then Some config else lookup_step key rest
  end.

(** The names of the properties every object inherits from
    [Object.prototype]. *)
Definition Object_prototype : list string :=
  ["constructor"; "hasOwnProperty"; "isPrototypeOf"; "propertyIsEnumerable";
   "toLocaleString"; "toString"; "valueOf"; "__proto__"; "__defineGetter__";
   "__defineSetter__"; "__lookupGetter__"; "__lookupSetter__"].

(** What [ANALYSIS_STEPS[key]] evaluates to: the configuration the object
    defines under the key; else, for an inherited name, the member of
    [Object.prototype] (a function, or the prototype itself for
    [__proto__]), which is truthy and has neither [progress] nor
    [description]; else [undefined], which is [None]. *)
Inductive StepValue : Type :=
  | Configured (config : StepConfig)
  | Inherited.

Definition ANALYSIS_STEPS_at (key : string) : option StepValue :=
  match lookup_step key ANALYSIS_STEPS with
  | Some config => Some (Configured config)
  | None => if decide (key ∈ Object_prototype) then Some Inherited else None
  end.

(** [progress >= stepConfig.progress]: a comparison with [undefined] is
    false. *)
Definition reached (percentage : N) (stepConfig : StepValue) : bool :=
  match stepConfig with
  | Configured config => (progress config <=? percentage)%N
  | Inherited => false
  end.

(** [getCurrentStepKey(message)]: the first catalog entry whose key (first
    underscore as a space) or lower-cased name occurs in the lower-cased
    message. *)
Fixpoint first_step_in (lowerMessage : string) (steps : list (string * StepConfig))
  : option string :=
  match steps with
  | [] => None
  | (key, config) :: rest =>
      if includes lowerMessage (replace_underscore key)
         || includes lowerMessage (toLowerCase (name config))
      then Some key
      else first_step_in lowerMessage rest
  end.

Definition getCurrentStepKey (message : option string) : option string :=
  match message with
  | None => None
  | Some "" => None
  | Some m => first_step_in (toLowerCase m) ANALYSIS_STEPS
  end.

(** *** The page *)

(** A [.step-item]: its [data-step], its classes, and the [hidden] class of
    each of its status icons ([None] for an icon the item lacks). *)
Record StepItem : Type := {
  data_step : string;
  item_active : bool;
  item_completed : bool;
  step_pending : option bool;
  step_active : option bool;
  step_complete : option bool
}.

(** A [.feed-item]: the time at which it was added (the page shows it with
    [toLocaleTimeString]) and its message, taken as text. *)
Record FeedItem : Type := {
  feed_timestamp : Z;
  feed_message : string
}.

Record ViewReport : Type := {
  display : string;
  click_listeners : nat
}.

(** What [showNotification] is called with. The completion notice carries
    the word count, which the page prints with [toLocaleString]. *)
Inductive NoticeText : Type :=
  | Plain (message : string)
  | Completed (report_word_count : option N).

Record Notification : Type := {
  notice : NoticeText;
  notice_type : string;
  notice_duration : Z
}.

Record Page : Type := {
  (** [analysisSocket] and the ids it sent with [join_analysis] *)
  analysisSocket : option (list string);
  (** [analysisId] *)
  analysisId : option string;
  (** [startTime], as a time value in milliseconds *)
  startTime : option Z;
  (** [progressInterval]: the identifier [setInterval] returned *)
  progressInterval : option nat;
  (** the interval timers that are running *)
  intervals : list nat;
  (** [#progress-fill] and its [style.width] in percent, unset at first *)
  progress_fill : option (option N);
  (** [#progress-percentage] and its text *)
  progress_percentage : option string;
  (** [#current-step-title] and its text *)
  current_step_title : option string;
  (** [#current-step-description] and its text *)
  current_step_description : option string;
  (** the [.step-item] elements, in document order *)
  step_items : list StepItem;
  (** [#analysis-feed] and its [.feed-item] children, oldest first *)
  analysis_feed : option (list FeedItem);
  (** [#elapsed-time] and its text *)
  elapsed_time : option string;
  (** [#remaining-time] and its text *)
  remaining_time : option string;
  (** [#completion-time] and the time value it shows *)
  completion_time : option (option Z);
  (** [#error-section] and whether it has the class [hidden] *)
  error_section : option bool;
  (** [#error-message] and its text *)
  error_message : option string;
  (** [#view-report] *)
  view_report : option ViewReport;
  (** [.progress-card] and whether it carries the completed style *)
  progress_card : option bool;
  (** [window.PsychAnalytica] and the calls of its [showNotification] *)
  notifications : option (list Notification);
  (** the URLs requested with [fetch], oldest first *)
  requests : list string;
  (** callbacks [animateCompletion] scheduled: (index, delay) *)
  timeouts : list (nat * Z)
}.

Definition set_analysisSocket (v : option (list string)) (pg : Page) : Page :=
  {| analysisSocket := v; analysisId := analysisId pg; startTime := startTime pg;
     progressInterval := progressInterval pg; intervals := intervals pg;
     progress_fill := progress_fill pg; progress_percentage := progress_percentage pg;
     current_step_title := current_step_title pg;
     current_step_description := current_step_description pg;
     step_items := step_items pg; analysis_feed := analysis_feed pg;
     elapsed_time := elapsed_time pg; remaining_time := remaining_time pg;
     completion_time := completion_time pg; error_section := error_section pg;
     error_message := error_message pg; view_report := view_report pg;
     progress_card := progress_card pg; notifications := notifications pg;
     requests := requests pg; timeouts := timeouts pg |}.

Definition set_analysisId (v : option string) (pg : Page) : Page :=
  {| analysisSocket := analysisSocket pg; analysisId := v; startTime := startTime pg;
     progressInterval := progressInterval pg; intervals := intervals pg;
     progress_fill := progress_fill pg; progress_percentage := progress_percentage pg;
     current_step_title := current_step_title pg;
     current_step_description := current_step_description pg;
     step_items := step_items pg; analysis_feed := analysis_feed pg;
     elapsed_time := elapsed_time pg; remaining_time := remaining_time pg;
     completion_time := completion_time pg; error_section := error_section pg;
     error_message := error_message pg; view_report := view_report pg;
     progress_card := progress_card pg; notifications := notifications pg;
     requests := requests pg; timeouts := timeouts pg |}.

Definition set_startTime (v : option Z) (pg : Page) : Page :=
  {| analysisSocket := analysisSocket pg; analysisId := analysisId pg; startTime := v;
     progressInterval := progressInterval pg; intervals := intervals pg;
     progress_fill := progress_fill pg; progress_percentage := progress_percentage pg;
     current_step_title := current_step_title pg;
     current_step_description := current_step_description pg;
     step_items := step_items pg; analysis_feed := analysis_feed pg;
     elapsed_time := elapsed_time pg; remaining_time := remaining_time pg;
     completion_time := completion_time pg; error_section := error_section pg;
     error_message := error_message pg; view_report := view_report pg;
     progress_card := progress_card pg; notifications := notifications pg;
     requests := requests pg; timeouts := timeouts pg |}.

Definition set_progressInterval (v : option nat) (pg : Page) : Page :=
  {| analysisSocket := analysisSocket pg; analysisId := analysisId pg;
     startTime := startTime pg; progressInterval := v; intervals := intervals pg;
     progress_fill := progress_fill pg; progress_percentage := progress_percentage pg;
     current_step_title := current_step_title pg;
     current_step_description := current_step_description pg;
     step_items := step_items pg; analysis_feed := analysis_feed pg;
     elapsed_time := elapsed_time pg; remaining_time := remaining_time pg;
     completion_time := completion_time pg; error_section := error_section pg;
     error_message := error_message pg; view_report := view_report pg;
     progress_card := progress_card pg; notifications := notifications pg;
     requests := requests pg; timeouts := timeouts pg |}.

Definition set_intervals (v : list nat) (pg : Page) : Page :=
  {| analysisSocket := analysisSocket pg; analysisId := analysisId pg;
     startTime := startTime pg; progressInterval := progressInterval pg;
     intervals := v; progress_fill := progress_fill pg;
     progress_percentage := progress_percentage pg;
     current_step_title := current_step_title pg;
     current_step_description := current_step_description pg;
     step_items := step_items pg; analysis_feed := analysis_feed pg;
     elapsed_time := elapsed_time pg; remaining_time := remaining_time pg;
     completion_time := completion_time pg; error_section := error_section pg;
     error_message := error_message pg; view_report := view_report pg;
     progress_card := progress_card pg; notifications := notifications pg;
     requests := requests pg; timeouts := timeouts pg |}.

Definition set_progress_fill (v : option (option N)) (pg : Page) : Page :=
  {| analysisSocket := analysisSocket pg; analysisId := analysisId pg;
     startTime := startTime pg; progressInterval := progressInterval pg;
     intervals := intervals pg; progress_fill := v;
     progress_percentage := progress_percentage pg;
     current_step_title := current_step_title pg;
     current_step_description := current_step_description pg;
     step_items := step_items pg; analysis_feed := analysis_feed pg;
     elapsed_time := elapsed_time pg; remaining_time := remaining_time pg;
     completion_time := completion_time pg; error_section := error_section pg;
     error_message := error_message pg; view_report := view_report pg;
     progress_card := progress_card pg; notifications := notifications pg;
     requests := requests pg; timeouts := timeouts pg |}.

Definition set_progress_percentage (v : option string) (pg : Page) : Page :=
  {| analysisSocket := analysisSocket pg; analysisId := analysisId pg;
     startTime := startTime pg; progressInterval := progressInterval pg;
     intervals := intervals pg; progress_fill := progress_fill pg;
     progress_percentage := v; current_step_title := current_step_title pg;
     current_step_description := current_step_description pg;
     step_items := step_items pg; analysis_feed := analysis_feed pg;
     elapsed_time := elapsed_time pg; remaining_time := remaining_time pg;
     completion_time := completion_time pg; error_section := error_section pg;
     error_message := error_message pg; view_report := view_report pg;
     progress_card := progress_card pg; notifications := notifications pg;
     requests := requests pg; timeouts := timeouts pg |}.

Definition set_current_step_title (v : option string) (pg : Page) : Page :=
  {| analysisSocket := analysisSocket pg; analysisId := analysisId pg;
     startTime := startTime pg; progressInterval := progressInterval pg;
     intervals := intervals pg; progress_fill := progress_fill pg;
     progress_percentage := progress_percentage pg; current_step_title := v;
     current_step_description := current_step_description pg;
     step_items := step_items pg; analysis_feed := analysis_feed pg;
     elapsed_time := elapsed_time pg; remaining_time := remaining_time pg;
     completion_time := completion_time pg; error_section := error_section pg;
     error_message := error_message pg; view_report := view_report pg;
     progress_card := progress_card pg; notifications := notifications pg;
     requests := requests pg; timeouts := timeouts pg |}.

Definition set_current_step_description (v : option string) (pg : Page) : Page :=
  {| analysisSocket := analysisSocket pg; analysisId := analysisId pg;
     startTime := startTime pg; progressInterval := progressInterval pg;
     intervals := intervals pg; progress_fill := progress_fill pg;
     progress_percentage := progress_percentage pg;
     current_step_title := current_step_title pg; current_step_description := v;
     step_items := step_items pg; analysis_feed := analysis_feed pg;
     elapsed_time := elapsed_time pg; remaining_time := remaining_time pg;
     completion_time := completion_time pg; error_section := error_section pg;
     error_message := error_message pg; view_report := view_report pg;
     progress_card := progress_card pg; notifications := notifications pg;
     requests := requests pg; timeouts := timeouts pg |}.

Definition set_step_items (v : list StepItem) (pg : Page) : Page :=
  {| analysisSocket := analysisSocket pg; analysisId := analysisId pg;
     startTime := startTime pg; progressInterval := progressInterval pg;
     intervals := intervals pg; progress_fill := progress_fill pg;
     progress_percentage := progress_percentage pg;
     current_step_title := current_step_title pg;
     current_step_description := current_step_description pg; step_items := v;
     analysis_feed := analysis_feed pg; elapsed_time := elapsed_time pg;
     remaining_time := remaining_time pg; completion_time := completion_time pg;
     error_section := error_section pg; error_message := error_message pg;
     view_report := view_report pg; progress_card := progress_card pg;
     notifications := notifications pg; requests := requests pg;
     timeouts := timeouts pg |}.

Definition set_analysis_feed (v : option (list FeedItem)) (pg : Page) : Page :=
  {| analysisSocket := analysisSocket pg; analysisId := analysisId pg;
     startTime := startTime pg; progressInterval := progressInterval pg;
     intervals := intervals pg; progress_fill := progress_fill pg;
     progress_percentage := progress_percentage pg;
     current_step_title := current_step_title pg;
     current_step_description := current_step_description pg;
     step_items := step_items pg; analysis_feed := v; elapsed_time := elapsed_time pg;
     remaining_time := remaining_time pg; completion_time := completion_time pg;
     error_section := error_section pg; error_message := error_message pg;
     view_report := view_report pg; progress_card := progress_card pg;
     notifications := notifications pg; requests := requests pg;
     timeouts := timeouts pg |}.

Definition set_elapsed_time (v : option string) (pg : Page) : Page :=
  {| analysisSocket := analysisSocket pg; analysisId := analysisId pg;
     startTime := startTime pg; progressInterval := progressInterval pg;
     intervals := intervals pg; progress_fill := progress_fill pg;
     progress_percentage := progress_percentage pg;
     current_step_title := current_step_title pg;
     current_step_description := current_step_description pg;
     step_items := step_items pg; analysis_feed := analysis_feed pg; elapsed_time := v;
     remaining_time := remaining_time pg; completion_time := completion_time pg;
     error_section := error_section pg; error_message := error_message pg;
     view_report := view_report pg; progress_card := progress_card pg;
     notifications := notifications pg; requests := requests pg;
     timeouts := timeouts pg |}.

Definition set_remaining_time (v : option string) (pg : Page) : Page :=
  {| analysisSocket := analysisSocket pg; analysisId := analysisId pg;
     startTime := startTime pg; progressInterval := progressInterval pg;
     intervals := intervals pg; progress_fill := progress_fill pg;
     progress_percentage := progress_percentage pg;
     current_step_title := current_step_title pg;
     current_step_description := current_step_description pg;
     step_items := step_items pg; analysis_feed := analysis_feed pg;
     elapsed_time := elapsed_time pg; remaining_time := v;
     completion_time := completion_time pg; error_section := error_section pg;
     error_message := error_message pg; view_report := view_report pg;
     progress_card := progress_card pg; notifications := notifications pg;
     requests := requests pg; timeouts := timeouts pg |}.

Definition set_completion_time (v : option (option Z)) (pg : Page) : Page :=
  {| analysisSocket := analysisSocket pg; analysisId := analysisId pg;
     startTime := startTime pg; progressInterval := progressInterval pg;
     intervals := intervals pg; progress_fill := progress_fill pg;
     progress_percentage := progress_percentage pg;
     current_step_title := current_step_title pg;
     current_step_description := current_step_description pg;
     step_items := step_items pg; analysis_feed := analysis_feed pg;
     elapsed_time := elapsed_time pg; remaining_time := remaining_time pg;
     completion_time := v; error_section := error_section pg;
     error_message := error_message pg; view_report := view_report pg;
     progress_card := progress_card pg; notifications := notifications pg;
     requests := requests pg; timeouts := timeouts pg |}.

Definition set_error_section (v : option bool) (pg : Page) : Page :=
  {| analysisSocket := analysisSocket pg; analysisId := analysisId pg;
     startTime := startTime pg; progressInterval := progressInterval pg;
     intervals := intervals pg; progress_fill := progress_fill pg;
     progress_percentage := progress_percentage pg;
     current_step_title := current_step_title pg;
     current_step_description := current_step_description pg;
     step_items := step_items pg; analysis_feed := analysis_feed pg;
     elapsed_time := elapsed_time pg; remaining_time := remaining_time pg;
     completion_time := completion_time pg; error_section := v;
     error_message := error_message pg; view_report := view_report pg;
     progress_card := progress_card pg; notifications := notifications pg;
     requests := requests pg; timeouts := timeouts pg |}.

Definition set_error_message (v : option string) (pg : Page) : Page :=
  {| analysisSocket := analysisSocket pg; analysisId := analysisId pg;
     startTime := startTime pg; progressInterval := progressInterval pg;
     intervals := intervals pg; progress_fill := progress_fill pg;
     progress_percentage := progress_percentage pg;
     current_step_title := current_step_title pg;
     current_step_description := current_step_description pg;
     step_items := step_items pg; analysis_feed := analysis_feed pg;
     elapsed_time := elapsed_time pg; remaining_time := remaining_time pg;
     completion_time := completion_time pg; error_section := error_section pg;
     error_message := v; view_report := view_report pg;
     progress_card := progress_card pg; notifications := notifications pg;
     requests := requests pg; timeouts := timeouts pg |}.

Definition set_view_report (v : option ViewReport) (pg : Page) : Page :=
  {| analysisSocket := analysisSocket pg; analysisId := analysisId pg;
     startTime := startTime pg; progressInterval := progressInterval pg;
     intervals := intervals pg; progress_fill := progress_fill pg;
     progress_percentage := progress_percentage pg;
     current_step_title := current_step_title pg;
     current_step_description := current_step_description pg;
     step_items := step_items pg; analysis_feed := analysis_feed pg;
     elapsed_time := elapsed_time pg; remaining_time := remaining_time pg;
     completion_time := completion_time pg; error_section := error_section pg;
     error_message := error_message pg; view_report := v;
     progress_card := progress_card pg; notifications := notifications pg;
     requests := requests pg; timeouts := timeouts pg |}.

Definition set_progress_card (v : option bool) (pg : Page) : Page :=
  {| analysisSocket := analysisSocket pg; analysisId := analysisId pg;
     startTime := startTime pg; progressInterval := progressInterval pg;
     intervals := intervals pg; progress_fill := progress_fill pg;
     progress_percentage := progress_percentage pg;
     current_step_title := current_step_title pg;
     current_step_description := current_step_description pg;
     step_items := step_items pg; analysis_feed := analysis_feed pg;
     elapsed_time := elapsed_time pg; remaining_time := remaining_time pg;
     completion_time := completion_time pg; error_section := error_section pg;
     error_message := error_message pg; view_report := view_report pg;
     progress_card := v; notifications := notifications pg; requests := requests pg;
     timeouts := timeouts pg |}.

Definition set_notifications (v : option (list Notification)) (pg : Page) : Page :=
  {| analysisSocket := analysisSocket pg; analysisId := analysisId pg;
     startTime := startTime pg; progressInterval := progressInterval pg;
     intervals := intervals pg; progress_fill := progress_fill pg;
     progress_percentage := progress_percentage pg;
     current_step_title := current_step_title pg;
     current_step_description := current_step_description pg;
     step_items := step_items pg; analysis_feed := analysis_feed pg;
     elapsed_time := elapsed_time pg; remaining_time := remaining_time pg;
     completion_time := completion_time pg; error_section := error_section pg;
     error_message := error_message pg; view_report := view_report pg;
     progress_card := progress_card pg; notifications := v; requests := requests pg;
     timeouts := timeouts pg |}.

Definition set_requests (v : list string) (pg : Page) : Page :=
  {| analysisSocket := analysisSocket pg; analysisId := analysisId pg;
     startTime := startTime pg; progressInterval := progressInterval pg;
     intervals := intervals pg; progress_fill := progress_fill pg;
     progress_percentage := progress_percentage pg;
     current_step_title := current_step_title pg;
     current_step_description := current_step_description pg;
     step_items := step_items pg; analysis_feed := analysis_feed pg;
     elapsed_time := elapsed_time pg; remaining_time := remaining_time pg;
     completion_time := completion_time pg; error_section := error_section pg;
     error_message := error_message pg; view_report := view_report pg;
     progress_card := progress_card pg; notifications := notifications pg;
     requests := v; timeouts := timeouts pg |}.

Definition set_timeouts (v : list (nat * Z)) (pg : Page) : Page :=
  {| analysisSocket := analysisSocket pg; analysisId := analysisId pg;
     startTime := startTime pg; progressInterval := progressInterval pg;
     intervals := intervals pg; progress_fill := progress_fill pg;
     progress_percentage := progress_percentage pg;
     current_step_title := current_step_title pg;
     current_step_description := current_step_description pg;
     step_items := step_items pg; analysis_feed := analysis_feed pg;
     elapsed_time := elapsed_time pg; remaining_time := remaining_time pg;
     completion_time := completion_time pg; error_section := error_section pg;
     error_message := error_message pg; view_report := view_report pg;
     progress_card := progress_card pg; notifications := notifications pg;
     requests := requests pg; timeouts := v |}.
(** The page before any script ran: no socket, no timers, nothing requested. *)
Definition empty_page : Page :=
  {| analysisSocket := None; analysisId := None; startTime := None;
     progressInterval := None; intervals := []; progress_fill := None;
     progress_percentage := None; current_step_title := None;
     current_step_description := None; step_items := []; analysis_feed := None;
     elapsed_time := None; remaining_time := None; completion_time := None;
     error_section := None; error_message := None; view_report := None;
     progress_card := None; notifications := None; requests := []; timeouts := [] |}.

(** *** Values *)

(** A message that may be [undefined]: how a template literal prints it, and
    whether it is truthy. *)
Definition text_of (message : option string) : string := default "undefined" message.

Definition truthy (message : option string) : bool :=
  match message with
  | None => false
  | Some "" => false
  | Some _ => true
  end.

(** [message || fallback] *)
Definition or_else (message : option string) (fallback : string) : string :=
  match message with
  | None => fallback
  | Some "" => fallback
  | Some m => m
  end.

(** *** The feed and the progress display *)

(** [addFeedItem(message)] *)
Definition addFeedItem (now : Z) (message : option string) (pg : Page) : Page :=
  match analysis_feed pg with
  | None => pg
  | Some items =>
      let appended :=
        items ++ [{| feed_timestamp := now; feed_message := text_of message |}] in
      set_analysis_feed
        (Some (if (50 <? length appended)%nat then drop 1 appended else appended)) pg
  end.

(** One turn of the [forEach] in [updateStepIndicators]. *)
Definition hide (icon : option bool) : option bool := (λ _, true) <$> icon.
Definition unhide (icon : option bool) : option bool := (λ _, false) <$> icon.

Definition update_item (currentStepKey : option string) (percentage : N) (item : StepItem)
  : StepItem :=
  match ANALYSIS_STEPS_at (data_step item) with
  | None => item
  | Some stepConfig =>
      if reached percentage stepConfig then
        {| data_step := data_step item; item_active := false; item_completed := true;
           step_pending := hide (step_pending item);
           step_active := hide (step_active item);
           step_complete := unhide (step_complete item) |}
      else if decide (Some (data_step item) = currentStepKey) then
        {| data_step := data_step item; item_active := true; item_completed := false;
           step_pending := hide (step_pending item);
           step_active := unhide (step_active item);
           step_complete := hide (step_complete item) |}
      else
        {| data_step := data_step item; item_active := false; item_completed := false;
           step_pending := unhide (step_pending item);
           step_active := hide (step_active item);
           step_complete := hide (step_complete item) |}
  end.

(** [updateStepIndicators(currentStepKey, progress)] *)
Definition updateStepIndicators (currentStepKey : option string) (percentage : N)
    (pg : Page) : Page :=
  set_step_items (update_item currentStepKey percentage <$> step_items pg) pg.

(** [updateProgress(percentage, message, step = null)]. The percentage is a
    whole number that is not negative, which is what the server reports;
    [style.width] then reads back as that number. For a [step] that names
    an inherited property the description is [undefined], and
    [textContent = undefined] leaves the element without text. *)
Definition updateProgress (now : Z) (percentage : N) (message step : option string)
    (pg : Page) : Page :=
  let pg1 := match progress_fill pg with
             | Some _ => set_progress_fill (Some (Some percentage)) pg
             | None => pg
             end in
  let pg2 := match progress_percentage pg1 with
             | Some _ => set_progress_percentage (Some (pretty percentage +:+ "%")) pg1
             | None => pg1
             end in
  let pg3 := match current_step_title pg2 with
             | Some _ =>
                 if truthy message then set_current_step_title (Some (text_of message)) pg2
                 else pg2
             | None => pg2
             end in
  let pg4 := match current_step_description pg3, step with
             | Some _, Some key =>
                 match ANALYSIS_STEPS_at key with
                 | Some (Configured stepConfig) =>
                     set_current_step_description (Some (description stepConfig)) pg3
                 | Some Inherited => set_current_step_description (Some "") pg3
                 | None => pg3
                 end
             | _, _ => pg3
             end in
  addFeedItem now message (updateStepIndicators step percentage pg4).

(** The percentage the progress bar shows, when there is a bar and a width. *)
Definition displayed (pg : Page) : option N :=
  match progress_fill pg with
  | Some width => width
  | None => None
  end.

(** *** Time display *)

(** [startTimeTracking(startTimeISO)], for a start time that parses to
    [start]; [id] is what [setInterval] returns. *)
Definition startTimeTracking (start : Z) (id : nat) (pg : Page) : Page :=
  set_progressInterval (Some id) (set_intervals (intervals pg ++ [id])
    (set_startTime (Some start) pg)).

(** [Math.floor((now - startTime) / 1000)] *)
Definition elapsed_seconds (now start : Z) : Z :=
  Math_floor (SFdiv prec emax (number_of_Z (now - start)) (number_of_Z 1000)).

(** [Math.max(0, Math.floor((elapsed / currentProgress) * 100 - elapsed))] *)
Definition remaining_seconds (elapsed : Z) (currentProgress : N) : Z :=
  let totalEstimated :=
    SFmul prec emax
      (SFdiv prec emax (number_of_Z elapsed) (number_of_Z (Z.of_N currentProgress)))
      (number_of_Z 100) in
  Z.max 0 (Math_floor (SFsub prec emax totalEstimated (number_of_Z elapsed))).

(** The callback [startTimeTracking] passes to [setInterval], run at [now]. *)
Definition tick (now : Z) (pg : Page) : Page :=
  let elapsed := elapsed_seconds now (default 0%Z (startTime pg)) in
  let pg1 := match elapsed_time pg with
             | Some _ => set_elapsed_time (Some (formatTime elapsed)) pg
             | None => pg
             end in
  match progress_fill pg1, remaining_time pg1 with
  | Some width, Some _ =>
      let currentProgress := default 0%N width in
      if (0 <? currentProgress)%N && (currentProgress <? 100)%N then
        let remaining := remaining_seconds elapsed currentProgress in
        let pg2 := set_remaining_time (Some (formatTime remaining)) pg1 in
        match completion_time pg2 with
        | Some _ => set_completion_time (Some (Some (now + remaining * 1000)%Z)) pg2
        | None => pg2
        end
      else pg1
  | _, _ => pg1
  end.

(** *** Errors and completion *)

(** [clearInterval(progressInterval); progressInterval = null], when set. *)
Definition stop_time_tracking (pg : Page) : Page :=
  match progressInterval pg with
  | Some id => set_progressInterval None (set_intervals (filter (λ i, i ≠ id) (intervals pg)) pg)
  | None => pg
  end.

(** [window.PsychAnalytica.showNotification(...)], when the global exists. *)
Definition showNotification (text : NoticeText) (type : string) (duration : Z) (pg : Page)
  : Page :=
  match notifications pg with
  | Some shown =>
      set_notifications
        (Some (shown ++ [{| notice := text; notice_type := type;
                            notice_duration := duration |}])) pg
  | None => pg
  end.

(** [showError(message)]. The message may be [undefined] (an
    [analysis_error] event without [error]): [textContent = undefined]
    leaves the element without text, where the template literals of the
    feed and of the notification print "undefined". *)
Definition showError (now : Z) (message : option string) (pg : Page) : Page :=
  let pg1 := match error_section pg with
             | Some _ => set_error_section (Some false) pg
             | None => pg
             end in
  let pg2 := match error_message pg1 with
             | Some _ => set_error_message (Some (default "" message)) pg1
             | None => pg1
             end in
  let pg3 := stop_time_tracking pg2 in
  let pg4 := addFeedItem now (Some ("ERROR: " +:+ text_of message)) pg3 in
  showNotification (Plain (text_of message)) "error" 5000 pg4.

(** [animateCompletion()]: the card is restyled at once, the step items one
    by one, [index * 200] milliseconds later. *)
Definition animateCompletion (pg : Page) : Page :=
  let pg1 := match progress_card pg with
             | Some _ => set_progress_card (Some true) pg
             | None => pg
             end in
  set_timeouts
    (timeouts pg1 ++ imap (λ index _, (index, (Z.of_nat index * 200)%Z)) (step_items pg1))
    pg1.

(** [handleAnalysisComplete(data)]; of [data] only [report_word_count] is read. *)
Definition handleAnalysisComplete (now : Z) (report_word_count : option N) (pg : Page)
  : Page :=
  let pg1 := stop_time_tracking pg in
  let pg2 := updateProgress now 100 (Some "Analysis completed successfully!") None pg1 in
  let pg3 := showNotification (Completed report_word_count) "success" 8000 pg2 in
  let pg4 := match view_report pg3 with
             | Some button =>
                 set_view_report
                   (Some {| display := "inline-flex";
                            click_listeners := S (click_listeners button) |}) pg3
             | None => pg3
             end in
  let pg5 :=
    addFeedItem now (Some "Analysis completed successfully! Report is ready for viewing.")
      pg4 in
  animateCompletion pg5.

(** *** Polling *)

(** The JSON body of a status response. *)
Record StatusData : Type := {
  resp_status : string;
  resp_progress : option N;
  resp_current_step : option string;
  resp_error_message : option string;
  resp_report_word_count : option N
}.

(** What [await fetch(...)] and [await response.json()] end with: the decoded
    body, or an exception. *)
Inductive FetchResult : Type :=
  | Response (data : StatusData)
  | Failed.

Definition status_url (pg : Page) : string :=
  "/api/analysis_status/" +:+ default "null" (analysisId pg).

(** [poll()] up to its first [await]: the request is sent. *)
Definition poll_request (pg : Page) : Page :=
  set_requests (requests pg ++ [status_url pg]) pg.

(** [poll()] from the response on. The boolean tells whether
    [setTimeout(poll, pollInterval)] was called. *)
Definition poll_response (now : Z) (result : FetchResult) (pg : Page) : Page * bool :=
  match result with
  | Failed => (showError now (Some "Failed to get analysis status") pg, false)
  | Response data =>
      if decide (resp_status data = "completed") then
        (handleAnalysisComplete now (resp_report_word_count data) pg, false)
      else if decide (resp_status data = "error") then
        (showError now (Some (or_else (resp_error_message data) "Analysis failed")) pg,
         false)
      else if decide (resp_status data = "processing") then
        (updateProgress now (default 0%N (resp_progress data))
           (Some (or_else (resp_current_step data) "Processing..."))
           (getCurrentStepKey (resp_current_step data)) pg,
         true)
      else (pg, true)
  end.

Definition pollInterval : Z := 2000.

(** The loop, with a request in flight: each response arrives at its time;
    when the timer was set, it fires and [poll] sends the next request. With
    no response left the request stays in flight. *)
Fixpoint poll_await (responses : list (Z * FetchResult)) (pg : Page) : Page :=
  match responses with
  | [] => pg
  | (now, result) :: rest =>
      let '(pg1, again) := poll_response now result pg in
      if again then poll_await rest (poll_request pg1) else pg1
  end.

(** [startProgressPolling()]: it returns once the first request is sent. *)
Definition startProgressPolling (pg : Page) : Page := poll_request pg.

(** A whole polling session against the given responses. *)
Definition polling_session (responses : list (Z * FetchResult)) (pg : Page) : Page :=
  poll_await responses (startProgressPolling pg).

(** *** Restart *)

Definition reset_item (item : StepItem) : StepItem :=
  {| data_step := data_step item; item_active := false; item_completed := false;
     step_pending := unhide (step_pending item);
     step_active := hide (step_active item);
     step_complete := hide (step_complete item) |}.

(** [restartAnalysis()], up to its return. *)
Definition restartAnalysis (now : Z) (pg : Page) : Page :=
  let pg1 := match progress_fill pg with
             | Some _ => set_progress_fill (Some (Some 0%N)) pg
             | None => pg
             end in
  let pg2 := match progress_percentage pg1 with
             | Some _ => set_progress_percentage (Some "0%") pg1
             | None => pg1
             end in
  let pg3 := set_step_items (reset_item <$> step_items pg2) pg2 in
  let pg4 := match analysis_feed pg3 with
             | Some _ =>
                 set_analysis_feed
                   (Some [{| feed_timestamp := now;
                             feed_message := "Analysis restarted" |}]) pg3
             | None => pg3
             end in
  let pg5 := set_startTime (Some now) pg4 in
  let pg6 := startProgressPolling pg5 in
  showNotification (Plain "Analysis restarted") "info" 5000 pg6.

(** *** Tracking and the push channel *)

(** [initializeAnalysisTracking(id)] *)
Definition initializeAnalysisTracking (now : Z) (id : string) (pg : Page) : Page :=
  let pg1 := set_analysisId (Some id) pg in
  let pg2 := match progress_fill pg1, progress_percentage pg1 with
             | Some _, Some _ =>
                 updateProgress now 0 (Some "Initializing analysis...") None pg1
             | _, _ => pg1
             end in
  startProgressPolling pg2.

(** [initializeWebSocket(id)] of analysis.js; [io_defined] tells whether the
    Socket.IO global exists. *)
Definition initializeWebSocket (io_defined : bool) (id : string) (pg : Page) : Page :=
  let pg1 := set_analysisId (Some id) pg in
  if io_defined then set_analysisSocket (Some []) pg1 else pg1.

(** The payload of an [analysis_progress] event. *)
Record ProgressData : Type := {
  push_analysis_id : string;
  push_progress : N;
  push_current_step : option string;
  push_step : option string
}.

(** The listeners [initializeWebSocket] attaches to [analysisSocket]. *)
Definition on_connect (pg : Page) : Page :=
  match analysisSocket pg with
  | Some joined => set_analysisSocket (Some (joined ++ [default "null" (analysisId pg)])) pg
  | None => pg
  end.

Definition on_analysis_progress (now : Z) (data : ProgressData) (pg : Page) : Page :=
  if decide (Some (push_analysis_id data) = analysisId pg) then
    updateProgress now (push_progress data) (push_current_step data) (push_step data) pg
  else pg.

Definition on_analysis_complete (now : Z) (analysis_id : string)
    (report_word_count : option N) (pg : Page) : Page :=
  if decide (Some analysis_id = analysisId pg) then
    handleAnalysisComplete now report_word_count pg
  else pg.

Definition on_analysis_error (now : Z) (analysis_id : string) (error : option string)
    (pg : Page) : Page :=
  if decide (Some analysis_id = analysisId pg) then showError now error pg
  else pg.

(** An update from either source: one of the three events of the push
    channel, or the answer to a status request. *)
Inductive ProgressEvent : Type :=
  | Pushed (data : ProgressData)
  | PushedComplete (analysis_id : string) (report_word_count : option N)
  | PushedError (analysis_id : string) (error : option string)
  | Polled (result : FetchResult).

Definition apply_event (now : Z) (e : ProgressEvent) (pg : Page) : Page :=
  match e with
  | Pushed data => on_analysis_progress now data pg
  | PushedComplete analysis_id report_word_count =>
      on_analysis_complete now analysis_id report_word_count pg
  | PushedError analysis_id error => on_analysis_error now analysis_id error pg
  | Polled result => (poll_response now result pg).1
  end.

Fixpoint apply_events (events : list (Z * ProgressEvent)) (pg : Page) : Page :=
  match events with
  | [] => pg
  | (now, e) :: rest => apply_events rest (apply_event now e pg)
  end.

(** *** What the properties are stated with *)

(** The part of the page that only tracking, polling and the socket write:
    the display functions leave it alone. *)
Definition session (pg : Page)
  : option string * list string * option (list string) * option Z :=
  (analysisId pg, requests pg, analysisSocket pg, startTime pg).

(** A response after which the loop goes on: any status but [completed] and
    [error]. *)
Definition goes_on (response : Z * FetchResult) : Prop :=
  match response.2 with
  | Response data => resp_status data ≠ "completed" ∧ resp_status data ≠ "error"
  | Failed => False
  end.

(** Appending a list of messages to the feed, each at its time. *)
Fixpoint add_feed_items (entries : list (Z * option string)) (pg : Page) : Page :=
  match entries with
  | [] => pg
  | (now, message) :: rest => add_feed_items rest (addFeedItem now message pg)
  end.

Definition feed_item (entry : Z * option string) : FeedItem :=
  {| feed_timestamp := entry.1; feed_message := text_of entry.2 |}.

(** The most recent [n] entries of a feed. *)
Definition most_recent (n : nat) (items : list FeedItem) : list FeedItem :=
  drop (length items - n) items.

(** The percentage an event writes to the progress bar, if it writes one:
    a pushed progress event for the tracked analysis writes its percentage,
    a pushed completion for the tracked analysis writes 100, a [processing]
    response writes [progress || 0], a [completed] response writes 100, and
    nothing else writes. *)
Definition event_percentage (tracked : option string) (e : ProgressEvent) : option N :=
  match e with
  | Pushed data =>
      if decide (Some (push_analysis_id data) = tracked) then Some (push_progress data)
      else None
  | PushedComplete analysis_id _ =>
      if decide (Some analysis_id = tracked) then Some 100%N else None
  | PushedError _ _ => None
  | Polled Failed => None
  | Polled (Response data) =>
      if decide (resp_status data = "completed") then Some 100%N
      else if decide (resp_status data = "error") then None
      else if decide (resp_status data = "processing")
           then Some (default 0%N (resp_progress data))
           else None
  end.

(** The percentage of the last event that wrote one, else [shown]. *)
Fixpoint last_written (tracked : option string) (events : list (Z * ProgressEvent))
    (shown : option N) : option N :=
  match events with
  | [] => shown
  | (_, e) :: rest =>
      last_written tracked rest
        (match event_percentage tracked e with
         | Some p => Some p
         | None => shown
         end)
  end.

(** The remaining time in the words of the specification:
    [estimatedTotal = elapsed / (p / 100)] and
    [estimatedRemaining = max(0, estimatedTotal - elapsed)], as numbers. *)
Definition spec_estimatedRemaining (elapsed : Z) (p : N) : spec_float :=
  let estimatedTotal :=
    SFdiv prec emax (number_of_Z elapsed)
      (SFdiv prec emax (number_of_Z (Z.of_N p)) (number_of_Z 100)) in
  let difference := SFsub prec emax estimatedTotal (number_of_Z elapsed) in
  if SFltb difference (number_of_Z 0) then number_of_Z 0 else difference.

(** *** Example pages *)

(** A page with the progress bar, the feed and the time displays, tracking
    analysis [job-1] since time 0, whose socket has joined the room. *)
Definition tracking : Page :=
  on_connect
    (initializeWebSocket true "job-1"
       (startTimeTracking 0 1
          (set_progress_fill (Some None)
             (set_progress_percentage (Some "")
                (set_analysis_feed (Some [])
                   (set_elapsed_time (Some "")
                      (set_remaining_time (Some "")
                         (set_notifications (Some []) empty_page)))))))).

Definition progress_event (p : N) : ProgressData :=
  {| push_analysis_id := "job-1"; push_progress := p;
     push_current_step := Some "Market Research"; push_step := Some "market_research" |}.

Definition status_data (status : string) (p : option N) : StatusData :=
  {| resp_status := status; resp_progress := p; resp_current_step := None;
     resp_error_message := None; resp_report_word_count := Some 12345%N |}.

(** The same page with the bar at 3 percent. *)
Definition at_three_percent : Page := set_progress_fill (Some (Some 3%N)) tracking.

(** A feed of 50 entries, and the page that shows it. *)
Definition full_feed : list FeedItem :=
  (λ i, {| feed_timestamp := Z.of_nat i; feed_message := "step" |}) <$> seq 0 50.

Definition with_full_feed : Page := set_analysis_feed (Some full_feed) tracking.

(** A page whose timeline shows two catalogued steps, one that is not in
    the catalog and one named after an inherited property, all pending. *)
Definition timeline : Page :=
  set_step_items
    ((λ key, {| data_step := key; item_active := false; item_completed := false;
                step_pending := Some false; step_active := Some true;
                step_complete := Some true |})
       <$> ["market_research"; "avatar_analysis"; "summary"; "toString"]) tracking.

End Analysis.

(** ** main.js: [debounce] and [throttle] *)

Module Main.

Section Timers.

(** The arguments of one call of the wrapped function. *)
Context {A : Type}.

(** The closure [debounce(func, wait)] returns, with what it captures: the
    variable [timeout], the timers that are set and not yet elapsed or
    cleared (each with the arguments its [later] captured), the identifier
    the next [setTimeout] returns, and the calls of [func] made so far. *)
Record Debounced : Type := {
  timeout : option nat;
  timers : list (nat * A);
  next_timer : nat;
  func_calls : list A
}.

Definition debounce : Debounced :=
  {| timeout := None; timers := []; next_timer := 1; func_calls := [] |}.

(** [clearTimeout(timeout)]: nothing for [undefined] or a timer that is no
    longer set. *)
Definition clearTimeout (id : option nat) (set : list (nat * A)) : list (nat * A) :=
  match id with
  | Some i => filter (λ t, t.1 ≠ i) set
  | None => set
  end.

(** [executedFunction(...args)] *)
Definition executedFunction (args : A) (d : Debounced) : Debounced :=
  {| timeout := Some (next_timer d);
     timers := clearTimeout (timeout d) (timers d) ++ [(next_timer d, args)];
     next_timer := S (next_timer d);
     func_calls := func_calls d |}.

(** Timer [id] elapses: its [later] runs, if the timer is still set. *)
Definition later (id : nat) (d : Debounced) : Debounced :=
  match list_find (λ t, t.1 = id) (timers d) with
  | Some (_, (_, args)) =>
      {| timeout := timeout d;
         timers := clearTimeout (timeout d) (filter (λ t, t.1 ≠ id) (timers d));
         next_timer := next_timer d;
         func_calls := func_calls d ++ [args] |}
  | None => d
  end.

(** What happens to a wrapped function: it is called, or a timer elapses. *)
Inductive TimerEvent : Type :=
  | Called (args : A)
  | Elapsed (id : nat).

Definition debounce_step (e : TimerEvent) (d : Debounced) : Debounced :=
  match e with
  | Called args => executedFunction args d
  | Elapsed id => later id d
  end.

Fixpoint debounce_run (events : list TimerEvent) (d : Debounced) : Debounced :=
  match events with
  | [] => d
  | e :: rest => debounce_run rest (debounce_step e d)
  end.

(** The closure [throttle(func, limit)] returns: the variable [inThrottle],
    the number of its timers that are set, and the calls of [func] made. *)
Record Throttled : Type := {
  inThrottle : bool;
  throttle_timers : nat;
  throttled_calls : list A
}.

Definition throttle : Throttled :=
  {| inThrottle := false; throttle_timers := 0; throttled_calls := [] |}.

(** The returned function, called with [args]. *)
Definition throttled (args : A) (t : Throttled) : Throttled :=
  if inThrottle t then t
  else {| inThrottle := true; throttle_timers := S (throttle_timers t);
          throttled_calls := throttled_calls t ++ [args] |}.

(** One of its timers elapses: [inThrottle = false]. *)
Definition throttle_elapsed (t : Throttled) : Throttled :=
  match throttle_timers t with
  | 0 => t
  | S n => {| inThrottle := false; throttle_timers := n;
              throttled_calls := throttled_calls t |}
  end.

Definition throttle_step (e : TimerEvent) (t : Throttled) : Throttled :=
  match e with
  | Called args => throttled args t
  | Elapsed _ => throttle_elapsed t
  end.

Fixpoint throttle_run (events : list TimerEvent) (t : Throttled) : Throttled :=
  match events with
  | [] => t
  | e :: rest => throttle_run rest (throttle_step e t)
  end.

(** The arguments of the calls among some events, in order. *)
Definition called (events : list TimerEvent) : list A :=
  omap (λ e, match e with Called args => Some args | Elapsed _ => None end) events.

(** The timers that elapsed among some events, in order. *)
Definition elapsed (events : list TimerEvent) : list nat :=
  omap (λ e, match e with Called _ => None | Elapsed id => Some id end) events.

End Timers.

Arguments Debounced : clear implicits.
Arguments Throttled : clear implicits.
Arguments TimerEvent : clear implicits.

End Main.

(** * Properties of the connection manager *)

Module WebSocketFacts.
Import WebSocket.

Section Registry.

Context {App : Type}.
Implicit Types (w : World App) (m : WebSocketManager) (h : HandlerRef).

(** ** [indexOf] and [splice] *)

Lemma indexOf_split h l i :
  indexOf h l = Some i →
  ∃ l1 l2, l = l1 ++ h :: l2 ∧ (h ∉ l1) ∧ length l1 = i ∧ delete i l = l1 ++ l2.
Proof.
  revert i. induction l as [|x l IH]; intros i; simpl; [done|].
  case_decide as Hx.
  - intros [= <-]. subst x. exists [], l. split_and!; [done| |done|done].
    apply not_elem_of_nil.
  - destruct (indexOf h l) as [j|] eqn:Hj; simpl; [|done].
    intros [= <-]. destruct (IH j eq_refl) as (l1 & l2 & -> & Hl1 & Hlen & Hdel).
    exists (x :: l1), l2. split_and!; simpl.
    + done.
    + rewrite not_elem_of_cons. split; [congruence|done].
    + by rewrite Hlen.
    + by rewrite Hdel.
Qed.

Lemma indexOf_None h l : indexOf h l = None → h ∉ l.
Proof.
  induction l as [|x l IH]; simpl; intros Hi; [apply not_elem_of_nil|].
  case_decide; [done|].
  destruct (indexOf h l); [done|].
  rewrite not_elem_of_cons. split; [congruence|by apply IH].
Qed.

(** ** What [on] and [off] do to the registry *)

Lemma handlers_of_on event h m :
  handlers_of event (on event h m) = handlers_of event m ++ [h].
Proof.
  unfold handlers_of, on. simpl. rewrite lookup_insert_eq. simpl.
  by destruct (eventHandlers m !! event).
Qed.

Lemma handlers_of_on_ne event event' h m :
  event ≠ event' → handlers_of event' (on event h m) = handlers_of event' m.
Proof.
  intros Hne. unfold handlers_of, on. simpl. by rewrite lookup_insert_ne.
Qed.

Lemma off_cases event h m :
  ((h ∉ handlers_of event m) ∧ off event h m = m)
  ∨ (∃ l1 l2, handlers_of event m = l1 ++ h :: l2 ∧ (h ∉ l1)
              ∧ handlers_of event (off event h m) = l1 ++ l2).
Proof.
  unfold handlers_of, off.
  destruct (eventHandlers m !! event) as [hs|] eqn:Hev; simpl.
  - destruct (indexOf h hs) as [i|] eqn:Hi.
    + right. destruct (indexOf_split _ _ _ Hi) as (l1 & l2 & -> & Hl1 & _ & Hdel).
      exists l1, l2. split_and!; [done|done|].
      simpl. rewrite lookup_insert_eq. simpl. by rewrite Hdel.
    + left. split; [by apply indexOf_None|done].
  - left. split; [apply not_elem_of_nil|done].
Qed.

Lemma handlers_of_off_ne event event' h m :
  event ≠ event' → handlers_of event' (off event h m) = handlers_of event' m.
Proof.
  intros Hne. unfold handlers_of, off.
  destruct (eventHandlers m !! event) as [hs|]; [|done].
  destruct (indexOf h hs); [|done].
  simpl. by rewrite lookup_insert_ne.
Qed.

(** C10. [off(event, handler)] removes at most one registration, the
    earliest one of that handler, and nothing registered for another event;
    so [on(event, handler)] followed by [off(event, handler)] leaves, for
    every event, the same handlers registered as before, each as many times
    as before. *)
Theorem off_after_on event h m :
  (∀ m', ((h ∉ handlers_of event m') ∧ off event h m' = m')
         ∨ (∃ l1 l2, handlers_of event m' = l1 ++ h :: l2 ∧ (h ∉ l1)
                     ∧ handlers_of event (off event h m') = l1 ++ l2))
  ∧ handlers_of event (off event h (on event h m)) ≡ₚ handlers_of event m
  ∧ (∀ event', event ≠ event' →
       handlers_of event' (off event h (on event h m)) = handlers_of event' m).
Proof.
  split_and!.
  - intros m'. apply off_cases.
  - destruct (off_cases event h (on event h m)) as [[Hnot _]|(l1 & l2 & Hsplit & _ & ->)].
    + rewrite handlers_of_on in Hnot. exfalso. apply Hnot.
      apply elem_of_app. right. apply list_elem_of_singleton. done.
    + rewrite handlers_of_on in Hsplit.
      apply (inj (cons h)).
      rewrite (Permutation_middle l1 l2 h), <- Hsplit.
      by rewrite Permutation_app_comm.
  - intros event' Hne. by rewrite handlers_of_off_ne, handlers_of_on_ne.
Qed.

(** ** Dispatch *)

Lemma call_in_order_refs (code : Code App) data hs w :
  (call_in_order code data hs w).2.*1 = hs.
Proof.
  revert w. induction hs as [|h hs IH]; intros w; simpl; [done|].
  destruct (code h data w) as [w1 r].
  match goal with |- context [call_in_order code data hs ?w2] =>
    specialize (IH w2); destruct (call_in_order code data hs w2) as [w3 calls] end.
  simpl in *. by f_equal.
Qed.

(** From position [length done] on, [forEach] over an array that the
    handlers leave alone calls what is left of it, one handler after the
    other. *)
Lemma forEach_handlers_stable (code : Code App) event data todo :
  ∀ finished w,
    handlers_of event (wsManager w) = finished ++ todo →
    (∀ h d w', h ∈ todo →
       handlers_of event (wsManager (code h d w').1) = handlers_of event (wsManager w')) →
    forEach_handlers code event data (length finished) (length todo) w
    = call_in_order code data todo w.
Proof.
  induction todo as [|h todo IH]; intros finished w Hhs Hstable; simpl; [done|].
  rewrite Hhs, lookup_app_r, Nat.sub_diag by done. simpl.
  pose proof (Hstable h data w ltac:(left)) as Hkeep.
  destruct (code h data w) as [w1 r]. simpl in Hkeep.
  set (w2 := match r with Returned => w1 | Threw e => console_error e w1 end).
  assert (handlers_of event (wsManager w2) = (finished ++ [h]) ++ todo) as Hhs2.
  { rewrite <- assoc by apply _. simpl. rewrite <- Hhs, <- Hkeep.
    subst w2. by destruct r. }
  specialize (IH (finished ++ [h]) w2 Hhs2).
  rewrite length_app in IH. simpl in IH. rewrite Nat.add_1_r in IH.
  rewrite IH; [done|].
  intros h' d w' Hin. apply Hstable. by right.
Qed.

(** C8, as the code has it. When no handler registered for the event changes
    the list of handlers registered for it while the event is dispatched,
    [triggerEvent] calls every registered handler, in registration order; a
    handler that throws has its error logged with [console.error] and the
    remaining handlers are called all the same. *)
Theorem triggerEvent_calls_every_handler (code : Code App) event data w hs :
  eventHandlers (wsManager w) !! event = Some hs →
  (∀ h d w', h ∈ hs →
     handlers_of event (wsManager (code h d w').1) = handlers_of event (wsManager w')) →
  triggerEvent code event data w = call_in_order code data hs w
  ∧ (triggerEvent code event data w).2.*1 = hs.
Proof.
  intros Hev Hstable.
  assert (triggerEvent code event data w = call_in_order code data hs w) as ->.
  { unfold triggerEvent. rewrite Hev.
    apply (forEach_handlers_stable code event data hs [] w); [|done].
    unfold handlers_of. by rewrite Hev. }
  split; [done|apply call_in_order_refs].
Qed.

(** ** Rooms *)

Lemma replay_sent rooms w :
  sent (foldl (λ w' r, socket_emit (join_analysis r) w') w rooms)
  = sent w ++ (join_analysis <$> rooms)
  ∧ wsManager (foldl (λ w' r, socket_emit (join_analysis r) w') w rooms) = wsManager w.
Proof.
  revert w. induction rooms as [|r rooms IH]; intros w; simpl.
  - by rewrite app_nil_r.
  - destruct (IH (socket_emit (join_analysis r) w)) as [-> ->]. simpl.
    by rewrite <- app_assoc.
Qed.

Lemma rejoinAnalysisRooms_sent w w' :
  rejoinAnalysisRooms w = Some w' →
  sent w' = sent w ++ (join_analysis <$> analysisRooms (wsManager w))
  ∧ wsManager w' = wsManager w.
Proof.
  unfold rejoinAnalysisRooms.
  destruct (analysisRooms (wsManager w)) as [|r rooms] eqn:Hrooms.
  - intros [= <-]. by rewrite app_nil_r.
  - destruct (socket (wsManager w)); [|done].
    intros [= <-]. apply (replay_sent (r :: rooms) w).
Qed.

(** C2, as the code has it. While the manager has no socket or is
    disconnected, [joinAnalysis] sends nothing, returns [false] and leaves
    the retained set as it was: the identifier is not added. The next
    successful connect therefore replays the rooms retained before the call,
    and only those. *)
Theorem joinAnalysis_while_disconnected analysisId w :
  socket (wsManager w) = None ∨ isConnected (wsManager w) = false →
  joinAnalysis analysisId w = (w, false)
  ∧ ∀ w', rejoinAnalysisRooms (connected (joinAnalysis analysisId w).1) = Some w' →
          sent w' = sent w ++ (join_analysis <$> analysisRooms (wsManager w)).
Proof.
  intros Hoff.
  assert (joinAnalysis analysisId w = (w, false)) as ->.
  { unfold joinAnalysis. destruct Hoff as [-> | ->]; [done|].
    by destruct (socket (wsManager w)). }
  split; [done|]. simpl. intros w' Hre.
  by destruct (rejoinAnalysisRooms_sent _ _ Hre) as [-> _].
Qed.

(** ** Handlers that act on the page only *)

Lemma call_in_order_quiet (code : Code App) data hs :
  (∀ h, h ∈ hs → quiet code h) →
  ∀ w, wsManager (call_in_order code data hs w).1 = wsManager w
       ∧ sent (call_in_order code data hs w).1 = sent w
       ∧ status_shown (call_in_order code data hs w).1 = status_shown w.
Proof.
  induction hs as [|h hs IH]; intros Hquiet w; [done|].
  cbn [call_in_order].
  destruct (Hquiet h ltac:(left) data w) as (Hm & Hsent & Hshown).
  destruct (code h data w) as [w1 r]. cbn [fst] in Hm, Hsent, Hshown.
  set (w2 := match r with Returned => w1 | Threw e => console_error e w1 end).
  assert (wsManager w2 = wsManager w ∧ sent w2 = sent w
          ∧ status_shown w2 = status_shown w) as (Hm2 & Hsent2 & Hshown2).
  { subst w2. by destruct r. }
  destruct (IH (λ h' Hin, Hquiet h' (list_elem_of_further _ _ _ Hin)) w2)
    as (Hm3 & Hsent3 & Hshown3).
  destruct (call_in_order code data hs w2) as [w3 calls]. cbn [fst] in *.
  split_and!; congruence.
Qed.

Lemma triggerEvent_quiet (code : Code App) event data w :
  (∀ h, h ∈ handlers_of event (wsManager w) → quiet code h) →
  wsManager (triggerEvent code event data w).1 = wsManager w
  ∧ sent (triggerEvent code event data w).1 = sent w
  ∧ status_shown (triggerEvent code event data w).1 = status_shown w.
Proof.
  intros Hquiet. unfold triggerEvent.
  destruct (eventHandlers (wsManager w) !! event) as [hs|] eqn:Hev; [|done].
  assert (handlers_of event (wsManager w) = hs) as Hhs.
  { unfold handlers_of. by rewrite Hev. }
  rewrite Hhs in Hquiet.
  pose proof (forEach_handlers_stable code event data hs [] w) as Hstable.
  cbn [length] in Hstable. rewrite Hstable.
  - by apply call_in_order_quiet.
  - done.
  - intros h d w' Hin. by destruct (Hquiet h Hin d w') as (-> & _).
Qed.

(** C9, as the code has it. [disconnect()] on a manager that has a socket
    closes it (a socket that was connected reports this at once, so that
    "Disconnected from server" is shown and the [ws_disconnected] handlers
    run first), then drops the socket, marks the manager disconnected and
    empties the retained set; the call itself writes nothing to the socket.
    After [reconnect()] the [connect] listener replays no room and goes on
    to the [ws_connected] handlers, which start from an empty set: what is
    subscribed on that connect is what these handlers join, nothing when
    they act on the page only. The listener for a disconnect reported by the
    transport hands the set to the [ws_disconnected] handlers as it was;
    when these act on the page only, the set is kept and the next connect
    replays it. *)
Theorem manual_disconnect_forgets_rooms (code : Code App) socket_connected w s :
  socket (wsManager w) = Some s →
  let w' := disconnect code socket_connected w in
  w' = with_manager
         (λ m, set_analysisRooms [] (set_isConnected false (set_socket None m)))
         (if socket_connected
          then (on_disconnect code "io client disconnect" w).1 else w)
  ∧ analysisRooms (wsManager w') = []
  ∧ socket (wsManager w') = None
  ∧ isConnected (wsManager w') = false
  ∧ ((∀ h, h ∈ handlers_of "ws_disconnected" (wsManager w) → quiet code h) →
     sent w' = sent w
     ∧ status_shown w'
       = status_shown w
           ++ (if socket_connected then [("Disconnected from server", "warning")] else [])
     ∧ eventHandlers (wsManager w') = eventHandlers (wsManager w))
  ∧ on_connect code (reconnect w')
    = triggerEvent code "ws_connected" PNull (connected (reconnect w'))
  ∧ sent (connected (reconnect w')) = sent w'
  ∧ analysisRooms (wsManager (connected (reconnect w'))) = []
  ∧ ((∀ h, h ∈ handlers_of "ws_connected" (wsManager w') → quiet code h) →
     sent (on_connect code (reconnect w')).1 = sent w'
     ∧ analysisRooms (wsManager (on_connect code (reconnect w')).1) = [])
  ∧ (∀ reason,
       (∃ w2, on_disconnect code reason w
              = triggerEvent code "ws_disconnected" (PReason reason) w2
              ∧ analysisRooms (wsManager w2) = analysisRooms (wsManager w)
              ∧ socket (wsManager w2) = socket (wsManager w))
       ∧ ((∀ h, h ∈ handlers_of "ws_disconnected" (wsManager w) → quiet code h) →
          analysisRooms (wsManager (on_disconnect code reason w).1)
          = analysisRooms (wsManager w)
          ∧ ∃ w3, rejoinAnalysisRooms (connected (on_disconnect code reason w).1) = Some w3
                  ∧ sent w3
                    = sent w ++ (join_analysis <$> analysisRooms (wsManager w)))).
Proof.
  intros Hs w'.
  (* The listener, on its own. *)
  assert (∀ reason,
    (∀ h, h ∈ handlers_of "ws_disconnected" (wsManager w) → quiet code h) →
    wsManager (on_disconnect code reason w).1 = set_isConnected false (wsManager w)
    ∧ sent (on_disconnect code reason w).1 = sent w
    ∧ status_shown (on_disconnect code reason w).1
      = status_shown w ++ [("Disconnected from server", "warning")]) as Hlistener.
  { intros reason Hquiet. unfold on_disconnect.
    match goal with |- context [triggerEvent code ?e ?d ?w0] =>
      destruct (triggerEvent_quiet code e d w0) as (-> & -> & ->); [exact Hquiet|done] end. }
  (* The call resets the three fields of whatever state the listener left. *)
  set (w1 := if socket_connected
             then (on_disconnect code "io client disconnect" w).1 else w).
  assert (w' = with_manager
                 (λ m, set_analysisRooms [] (set_isConnected false (set_socket None m))) w1)
    as Hw'.
  { subst w' w1. unfold disconnect. by rewrite Hs. }
  assert (on_connect code (reconnect w')
          = triggerEvent code "ws_connected" PNull (connected (reconnect w'))
          ∧ sent (connected (reconnect w')) = sent w'
          ∧ analysisRooms (wsManager (connected (reconnect w'))) = []
          ∧ eventHandlers (wsManager (connected (reconnect w')))
            = eventHandlers (wsManager w')) as (Hconnect & Hsent & Hrooms & Hhandlers).
  { rewrite Hw'. unfold on_connect, connected, reconnect, initialize. cbn.
    by destruct (io_defined w1). }
  split_and!.
  - exact Hw'.
  - by rewrite Hw'.
  - by rewrite Hw'.
  - by rewrite Hw'.
  - intros Hquiet. rewrite Hw'. subst w1. destruct socket_connected.
    + destruct (Hlistener "io client disconnect" Hquiet) as (Hm & Hsent1 & Hshown1).
      cbn. rewrite Hm, Hsent1, Hshown1. done.
    + cbn. by rewrite app_nil_r.
  - exact Hconnect.
  - exact Hsent.
  - exact Hrooms.
  - intros Hquiet. rewrite Hconnect.
    destruct (triggerEvent_quiet code "ws_connected" PNull (connected (reconnect w')))
      as (-> & -> & _); [|done].
    intros h Hin. apply Hquiet. unfold handlers_of in *. by rewrite <- Hhandlers.
  - intros reason. split; [by eexists|]. intros Hquiet.
    destruct (Hlistener reason Hquiet) as (Hm & Hsent1 & _).
    rewrite Hm. split; [done|].
    unfold rejoinAnalysisRooms, connected. cbn. rewrite Hm. cbn. rewrite Hs.
    destruct (analysisRooms (wsManager w)) as [|r rooms] eqn:Hrooms1.
    + eexists. split; [done|]. cbn. by rewrite Hsent1, app_nil_r.
    + eexists. split; [done|].
      match goal with |- sent (foldl ?f ?w0 ?l) = _ =>
        destruct (replay_sent l w0) as [-> _] end.
      cbn. rewrite Hsent1. by rewrite <- app_assoc.
Qed.

(** ** Reconnection *)

Lemma on_reconnect_error_attempts e w :
  reconnectAttempts (wsManager (on_reconnect_error e w)) = S (reconnectAttempts (wsManager w))
  ∧ maxReconnectAttempts (wsManager (on_reconnect_error e w))
    = maxReconnectAttempts (wsManager w)
  ∧ socket (wsManager (on_reconnect_error e w)) = socket (wsManager w).
Proof. unfold on_reconnect_error. simpl. by case_decide. Qed.

Lemma on_reconnect_error_shown e w :
  failed_to_reconnect_shown (on_reconnect_error e w)
  = failed_to_reconnect_shown w
    + (if decide (maxReconnectAttempts (wsManager w) ≤ S (reconnectAttempts (wsManager w)))%nat
       then 1 else 0).
Proof.
  unfold on_reconnect_error.
  cbn [wsManager with_manager reconnectAttempts maxReconnectAttempts
       set_reconnectAttempts].
  case_decide; unfold failed_to_reconnect_shown, showConnectionStatus;
    cbn [status_shown with_manager]; [|lia].
  rewrite filter_app, length_app. f_equal.
Qed.

(** C5, as the code has it. The manager hands its maximum, 5, to the
    transport as [reconnectionAttempts]; stopping is the transport's. Each
    reconnect-error event adds one to the counter, which only a successful
    connect resets, and shows "Failed to reconnect" whenever the counter has
    reached the maximum: not at all for fewer than 5 events in a row, once
    for exactly 5, and once more for every further event. The listener never
    touches the socket. *)
Theorem failed_to_reconnect_notices errors w :
  reconnectionAttempts (io_options constructor) = 5
  ∧ reconnectAttempts (wsManager (reconnect_errors errors w))
    = reconnectAttempts (wsManager w) + length errors
  ∧ socket (wsManager (reconnect_errors errors w)) = socket (wsManager w)
  ∧ failed_to_reconnect_shown (reconnect_errors errors w)
    = failed_to_reconnect_shown w
      + (reconnectAttempts (wsManager w) + length errors
         - Nat.max (reconnectAttempts (wsManager w))
                   (maxReconnectAttempts (wsManager w) - 1))
  ∧ (reconnectAttempts (wsManager w) = 0 → maxReconnectAttempts (wsManager w) = 5 →
     failed_to_reconnect_shown (reconnect_errors errors w)
     = failed_to_reconnect_shown w + (length errors - 4)).
Proof.
  split; [done|].
  assert (∀ w : World App,
    reconnectAttempts (wsManager (reconnect_errors errors w))
    = reconnectAttempts (wsManager w) + length errors
    ∧ maxReconnectAttempts (wsManager (reconnect_errors errors w))
      = maxReconnectAttempts (wsManager w)
    ∧ socket (wsManager (reconnect_errors errors w)) = socket (wsManager w)
    ∧ failed_to_reconnect_shown (reconnect_errors errors w)
      = failed_to_reconnect_shown w
        + (reconnectAttempts (wsManager w) + length errors
           - Nat.max (reconnectAttempts (wsManager w))
                     (maxReconnectAttempts (wsManager w) - 1))) as Hall.
  { clear w. induction errors as [|e errors IH]; intros w; simpl.
    - split_and!; try done; lia.
    - destruct (IH (on_reconnect_error e w)) as (-> & -> & -> & ->).
      destruct (on_reconnect_error_attempts e w) as (-> & -> & ->).
      rewrite on_reconnect_error_shown.
      split_and!; try done; [lia|].
      case_decide; lia. }
  destruct (Hall w) as (Ha & _ & Hs & Hn).
  split_and!; try done.
  intros H0 H5. rewrite Hn, H0, H5. simpl. lia.
Qed.

End Registry.

(** ** The theorems at concrete states *)

(** C2 at a concrete state: after [initialize()] and before the transport
    connects, [joinAnalysis("job-1")] leaves the retained set empty, and the
    connect that follows sends no [join_analysis]. *)
Lemma join_while_disconnected_is_dropped :
  isConnected (wsManager initialized) = false
  ∧ analysisRooms (wsManager (joinAnalysis "job-1" initialized).1) = []
  ∧ sent (on_connect first_throws (joinAnalysis "job-1" initialized).1).1 = [].
Proof. vm_compute. done. Qed.

Lemma joinAnalysis_while_disconnected_witness :
  isConnected (wsManager initialized) = false
  ∧ joinAnalysis "job-1" initialized = (initialized, false).
Proof.
  split; [reflexivity|].
  apply (joinAnalysis_while_disconnected "job-1" initialized). right. reflexivity.
Defined.

(** C9 at a concrete page, the one that has run [setupConnectionMonitoring()]
    and [initializeWebSocket("job-1")] and has connected. [disconnect()]
    empties the retained set; after [reconnect()] the next connect replays
    nothing, but the deferred join is still registered for [ws_connected]:
    it sends [join_analysis] for [job-1] again and the room is retained as
    before. *)
Lemma manual_disconnect_then_rejoined :
  analysisRooms (wsManager subscribed_page) = ["job-1"]
  ∧ sent subscribed_page = [join_analysis "job-1"]
  ∧ analysisRooms (wsManager (disconnect page_handlers true subscribed_page)) = []
  ∧ sent (on_connect page_handlers
            (reconnect (disconnect page_handlers true subscribed_page))).1
    = [join_analysis "job-1"; join_analysis "job-1"]
  ∧ analysisRooms
      (wsManager (on_connect page_handlers
                    (reconnect (disconnect page_handlers true subscribed_page))).1)
    = ["job-1"].
Proof. vm_compute. done. Qed.

Lemma manual_disconnect_forgets_rooms_witness :
  analysisRooms (wsManager subscribed_page) = ["job-1"]
  ∧ analysisRooms (wsManager (disconnect page_handlers true subscribed_page)) = []
  ∧ sent (disconnect page_handlers true subscribed_page) = [join_analysis "job-1"]
  ∧ status_shown (disconnect page_handlers true subscribed_page)
    = [("Connected to server", "success"); ("Disconnected from server", "warning")].
Proof.
  split; [reflexivity|].
  destruct (manual_disconnect_forgets_rooms page_handlers true subscribed_page
              {| sock_options := io_options constructor; sock_open := true |})
    as (_ & Hrooms & _ & _ & Hcall & _); [reflexivity|].
  split; [exact Hrooms|].
  destruct Hcall as (Hsent & Hshown & _).
  { intros h Hin d w. apply list_elem_of_singleton in Hin as ->. done. }
  split; [exact Hsent|exact Hshown].
Defined.

(** C5 at a concrete run: six reconnect-error events in a row, counted from
    a fresh connection, show the failure notice twice. *)
Lemma failed_to_reconnect_shown_twice :
  failed_to_reconnect_shown
    (reconnect_errors ["e1"; "e2"; "e3"; "e4"; "e5"; "e6"] (connected initialized)) = 2.
Proof. vm_compute. reflexivity. Qed.

(** C8 at a concrete registry: handlers 1, 2, 3 are registered for [tick]
    and handler 1 unregisters itself when called. The array shrinks under
    [forEach], position 1 then holds handler 3, and handler 2 is never
    called. *)
Lemma triggerEvent_skips_after_self_removal :
  handlers_of "tick" (wsManager three_handlers) = [1; 2; 3]
  ∧ (triggerEvent once "tick" PNull three_handlers).2 = [(1, Returned); (3, Returned)].
Proof. vm_compute. done. Qed.

Lemma triggerEvent_calls_every_handler_witness :
  (triggerEvent first_throws "tick" PNull three_handlers).2
  = [(1, Threw "boom"); (2, Returned); (3, Returned)]
  ∧ console_errors (triggerEvent first_throws "tick" PNull three_handlers).1 = ["boom"].
Proof.
  destruct (triggerEvent_calls_every_handler first_throws "tick" PNull three_handlers
              [1; 2; 3]) as [-> _].
  - reflexivity.
  - intros h d w' _. reflexivity.
  - split; reflexivity.
Defined.

End WebSocketFacts.

(** * Properties of the analysis page *)

Module AnalysisFacts.
Import Analysis.

Implicit Types (pg : Page) (now : Z).

(** Reduces the projections of the page record over its setters, and nothing
    else. *)
Ltac page_simpl :=
  cbn [analysisSocket analysisId startTime progressInterval intervals progress_fill
       progress_percentage current_step_title current_step_description step_items
       analysis_feed elapsed_time remaining_time completion_time error_section
       error_message view_report progress_card notifications requests timeouts
       set_analysisSocket set_analysisId set_startTime set_progressInterval set_intervals
       set_progress_fill set_progress_percentage set_current_step_title
       set_current_step_description set_step_items set_analysis_feed set_elapsed_time
       set_remaining_time set_completion_time set_error_section set_error_message
       set_view_report set_progress_card set_notifications set_requests set_timeouts fmap
       option_fmap option_map] in *.

(** Splits on the elements a page may lack. *)
Ltac page_cases :=
  repeat (page_simpl; case_match); page_simpl; try congruence; try done;
  try (repeat match goal with
              | H : _ = Some _ |- _ => rewrite H
              | H : _ = None |- _ => rewrite H
              end; done).

(** ** What each function leaves alone *)

Lemma addFeedItem_session now message pg :
  session (addFeedItem now message pg) = session pg
  ∧ progress_fill (addFeedItem now message pg) = progress_fill pg
  ∧ notifications (addFeedItem now message pg) = notifications pg.
Proof. unfold addFeedItem, session. split_and!; page_cases. Qed.

Lemma stop_time_tracking_session pg :
  session (stop_time_tracking pg) = session pg
  ∧ progress_fill (stop_time_tracking pg) = progress_fill pg
  ∧ notifications (stop_time_tracking pg) = notifications pg.
Proof. unfold stop_time_tracking, session. split_and!; page_cases. Qed.

Lemma showNotification_session text type duration pg :
  session (showNotification text type duration pg) = session pg
  ∧ progress_fill (showNotification text type duration pg) = progress_fill pg
  ∧ notifications (showNotification text type duration pg)
    = (λ shown, shown ++ [{| notice := text; notice_type := type;
                             notice_duration := duration |}]) <$> notifications pg.
Proof. unfold showNotification, session. split_and!; page_cases. Qed.

Lemma animateCompletion_session pg :
  session (animateCompletion pg) = session pg
  ∧ progress_fill (animateCompletion pg) = progress_fill pg
  ∧ notifications (animateCompletion pg) = notifications pg.
Proof. unfold animateCompletion, session. split_and!; page_cases. Qed.

Lemma updateProgress_session now p message step pg :
  session (updateProgress now p message step pg) = session pg
  ∧ progress_fill (updateProgress now p message step pg) = (λ _, Some p) <$> progress_fill pg
  ∧ notifications (updateProgress now p message step pg) = notifications pg.
Proof.
  unfold updateProgress, updateStepIndicators, addFeedItem, session.
  split_and!; page_cases.
Qed.

Lemma showError_session now message pg :
  session (showError now message pg) = session pg
  ∧ progress_fill (showError now message pg) = progress_fill pg.
Proof.
  unfold showError.
  rewrite (proj1 (showNotification_session _ _ _ _)),
    (proj1 (proj2 (showNotification_session _ _ _ _))),
    (proj1 (addFeedItem_session _ _ _)), (proj1 (proj2 (addFeedItem_session _ _ _))),
    (proj1 (stop_time_tracking_session _)), (proj1 (proj2 (stop_time_tracking_session _))).
  unfold session. split; page_cases.
Qed.

Lemma handleAnalysisComplete_session now words pg :
  session (handleAnalysisComplete now words pg) = session pg
  ∧ progress_fill (handleAnalysisComplete now words pg)
    = (λ _, Some 100%N) <$> progress_fill pg
  ∧ notifications (handleAnalysisComplete now words pg)
    = (λ shown, shown ++ [{| notice := Completed words; notice_type := "success";
                             notice_duration := 8000 |}]) <$> notifications pg.
Proof.
  unfold handleAnalysisComplete.
  set (pg3 := showNotification _ _ _ _).
  assert (session pg3 = session pg
          ∧ progress_fill pg3 = (λ _, Some 100%N) <$> progress_fill pg
          ∧ notifications pg3
            = (λ shown, shown ++ [{| notice := Completed words; notice_type := "success";
                                     notice_duration := 8000 |}]) <$> notifications pg)
    as (Hs & Hf & Hn).
  { subst pg3.
    destruct (showNotification_session (Completed words) "success" 8000
                (updateProgress now 100 (Some "Analysis completed successfully!") None
                   (stop_time_tracking pg))) as (-> & -> & ->).
    destruct (updateProgress_session now 100 (Some "Analysis completed successfully!") None
                (stop_time_tracking pg)) as (-> & -> & ->).
    by destruct (stop_time_tracking_session pg) as (-> & -> & ->). }
  rewrite (proj1 (animateCompletion_session _)),
    (proj1 (proj2 (animateCompletion_session _))),
    (proj2 (proj2 (animateCompletion_session _))),
    (proj1 (addFeedItem_session _ _ _)), (proj1 (proj2 (addFeedItem_session _ _ _))),
    (proj2 (proj2 (addFeedItem_session _ _ _))).
  rewrite <- Hs, <- Hf, <- Hn. unfold session.
  destruct (view_report pg3); done.
Qed.

(** ** The feed *)

Lemma addFeedItem_feed now message pg items :
  analysis_feed pg = Some items → (length items ≤ 50)%nat →
  analysis_feed (addFeedItem now message pg)
  = Some (most_recent 50 (items ++ [feed_item (now, message)]))
  ∧ (length (most_recent 50 (items ++ [feed_item (now, message)])) ≤ 50)%nat.
Proof.
  intros Hfeed Hlen. unfold addFeedItem, most_recent, feed_item. rewrite Hfeed. simpl.
  rewrite length_app. simpl.
  destruct (Nat.ltb_spec 50 (length items + 1)) as [Hgt|Hle].
  - replace (length items + 1 - 50) with 1 by lia.
    split; [done|]. rewrite length_drop, length_app. simpl. lia.
  - replace (length items + 1 - 50) with 0 by lia.
    split; [done|]. rewrite drop_0, length_app. simpl. lia.
Qed.

Lemma most_recent_snoc (items : list FeedItem) item rest :
  (length items ≤ 50)%nat →
  most_recent 50 (most_recent 50 (items ++ [item]) ++ rest)
  = most_recent 50 (items ++ item :: rest).
Proof.
  intros Hlen. unfold most_recent.
  rewrite (cons_middle item items rest), (app_assoc items [item] rest).
  set (l := items ++ [item]).
  assert (length l = length items + 1) as Hl by (subst l; rewrite length_app; simpl; lia).
  assert (length l - 50 ≤ length l)%nat as Hk by lia.
  rewrite <- (drop_app_le l rest (length l - 50)) by lia.
  rewrite drop_drop. f_equal.
  rewrite length_drop, !length_app. lia.
Qed.

(** C6. A feed that holds at most 50 entries holds, after any sequence of
    appends, the most recent 50 of its entries and the appended ones, in
    their order: at most 50, the oldest dropped first. *)
Theorem feed_keeps_most_recent_50 entries pg items :
  analysis_feed pg = Some items → (length items ≤ 50)%nat →
  analysis_feed (add_feed_items entries pg)
  = Some (most_recent 50 (items ++ (feed_item <$> entries)))
  ∧ (length (most_recent 50 (items ++ (feed_item <$> entries))) ≤ 50)%nat.
Proof.
  revert pg items. induction entries as [|[now message] entries IH];
    intros pg items Hfeed Hlen; simpl.
  - rewrite app_nil_r. unfold most_recent.
    replace (length items - 50) with 0 by lia. by rewrite drop_0.
  - destruct (addFeedItem_feed now message pg items Hfeed Hlen) as [Hfeed1 Hlen1].
    destruct (IH _ _ Hfeed1 Hlen1) as [-> Hlen2].
    rewrite most_recent_snoc in * by done. done.
Qed.

(** ** The progress display *)

Lemma session_analysisId pg pg' : session pg' = session pg → analysisId pg' = analysisId pg.
Proof. unfold session. congruence. Qed.

Lemma session_requests pg pg' : session pg' = session pg → requests pg' = requests pg.
Proof. unfold session. congruence. Qed.

Lemma apply_event_fill now e pg :
  progress_fill (apply_event now e pg)
  = match event_percentage (analysisId pg) e with
    | Some p => (λ _, Some p) <$> progress_fill pg
    | None => progress_fill pg
    end
  ∧ analysisId (apply_event now e pg) = analysisId pg.
Proof.
  destruct e as [data|analysis_id words|analysis_id error|[data|]];
    unfold apply_event, on_analysis_progress, on_analysis_complete, on_analysis_error,
      poll_response, event_percentage.
  - destruct (decide (Some (push_analysis_id data) = analysisId pg)); [|done].
    split; [|apply session_analysisId]; apply updateProgress_session.
  - destruct (decide (Some analysis_id = analysisId pg)); [|done].
    split; [|apply session_analysisId]; apply handleAnalysisComplete_session.
  - destruct (decide (Some analysis_id = analysisId pg)); [|done].
    split; [|apply session_analysisId]; apply showError_session.
  - destruct (decide (resp_status data = "completed")).
    { split; [|apply session_analysisId]; apply handleAnalysisComplete_session. }
    destruct (decide (resp_status data = "error")).
    { split; [|apply session_analysisId]; apply showError_session. }
    destruct (decide (resp_status data = "processing")); [|done].
    split; [|apply session_analysisId]; apply updateProgress_session.
  - split; [|apply session_analysisId]; apply showError_session.
Qed.

Lemma apply_event_displayed now e pg :
  is_Some (progress_fill pg) →
  displayed (apply_event now e pg)
  = match event_percentage (analysisId pg) e with
    | Some p => Some p
    | None => displayed pg
    end
  ∧ is_Some (progress_fill (apply_event now e pg)).
Proof.
  intros [width Hfill]. unfold displayed.
  rewrite (proj1 (apply_event_fill now e pg)), Hfill.
  destruct (event_percentage (analysisId pg) e); eauto.
Qed.

(** C1, as the code has it. [updateProgress] writes the percentage it is
    given without comparing it with the one displayed, and no terminal flag
    is kept: after any sequence of events from the push channel (progress,
    completion and error events) and from the polling loop, the progress bar
    shows the percentage of the last event that wrote one, lower or not,
    before or after a completion or an error. *)
Theorem displayed_progress_is_last_written events pg :
  is_Some (progress_fill pg) →
  displayed (apply_events events pg) = last_written (analysisId pg) events (displayed pg).
Proof.
  revert pg. induction events as [|[now e] events IH]; intros pg Hfill; simpl; [done|].
  destruct (apply_event_displayed now e pg Hfill) as (Hshown & Hfill').
  rewrite IH by done. by rewrite (proj2 (apply_event_fill now e pg)), Hshown.
Qed.

(** ** Restart *)

(** C3, as the code has it. [restartAnalysis] sets the progress bar and its
    label to 0, resets every step indicator, replaces the feed by the single
    entry "Analysis restarted", sets the start time to the current time and
    sends one status request, which starts the polling loop again. It sends
    nothing on the socket: the push-channel subscription is left as it
    was. *)
Theorem restartAnalysis_effect now pg :
  progress_fill (restartAnalysis now pg) = (λ _, Some 0%N) <$> progress_fill pg
  ∧ progress_percentage (restartAnalysis now pg) = (λ _, "0%") <$> progress_percentage pg
  ∧ step_items (restartAnalysis now pg) = reset_item <$> step_items pg
  ∧ analysis_feed (restartAnalysis now pg)
    = (λ _, [{| feed_timestamp := now; feed_message := "Analysis restarted" |}])
        <$> analysis_feed pg
  ∧ startTime (restartAnalysis now pg) = Some now
  ∧ requests (restartAnalysis now pg) = requests pg ++ [status_url pg]
  ∧ analysisSocket (restartAnalysis now pg) = analysisSocket pg
  ∧ analysisId (restartAnalysis now pg) = analysisId pg.
Proof.
  unfold restartAnalysis, startProgressPolling, poll_request, status_url, showNotification.
  split_and!; page_cases.
Qed.

(** ** Polling *)

Lemma poll_response_requests now result pg :
  requests (poll_response now result pg).1 = requests pg.
Proof.
  destruct result as [data|]; unfold poll_response.
  - destruct (decide (resp_status data = "completed")).
    { apply session_requests, handleAnalysisComplete_session. }
    destruct (decide (resp_status data = "error")).
    { apply session_requests, showError_session. }
    destruct (decide (resp_status data = "processing")); [|done].
    apply session_requests, updateProgress_session.
  - apply session_requests, showError_session.
Qed.

Lemma poll_await_requests_terminal now result before :
  (∀ pg', (poll_response now result pg').2 = false) →
  ∀ pg, (length (requests (poll_await (before ++ [(now, result)]) pg))
         ≤ length (requests pg) + length before)%nat.
Proof.
  intros Hstop. induction before as [|[t r] before IH]; intros pg; simpl.
  - pose proof (poll_response_requests now result pg) as Hreq.
    specialize (Hstop pg). destruct (poll_response now result pg) as [pg1 again].
    simpl in *. subst again. rewrite Hreq. lia.
  - pose proof (poll_response_requests t r pg) as Hreq.
    destruct (poll_response t r pg) as [pg1 again]. simpl in Hreq.
    destruct again.
    + etrans; [apply IH|]. unfold poll_request. page_simpl.
      rewrite length_app, Hreq. simpl. lia.
    + rewrite Hreq. lia.
Qed.

Lemma poll_await_stops now result rest before :
  ∀ pg, (∀ pg', (poll_response now result pg').2 = false) →
        poll_await (before ++ (now, result) :: rest) pg
        = poll_await (before ++ [(now, result)]) pg.
Proof.
  induction before as [|[t r] before IH]; intros pg Hstop; simpl.
  - specialize (Hstop pg). destruct (poll_response now result pg) as [pg1 again].
    simpl in Hstop. by subst again.
  - destruct (poll_response t r pg) as [pg1 again]. destruct again; [|done].
    by apply IH.
Qed.

Lemma goes_on_again now result pg :
  goes_on (now, result) → (poll_response now result pg).2 = true.
Proof.
  unfold goes_on. destruct result as [data|]; [|done]. simpl. intros [Hc He].
  rewrite !decide_False by done. by case_decide.
Qed.

Lemma poll_await_app before rest :
  Forall goes_on before →
  ∀ pg, poll_await (before ++ rest) pg = poll_await rest (poll_await before pg).
Proof.
  induction 1 as [|[t r] before Hgo Hall IH]; intros pg; [done|].
  cbn [app poll_await].
  pose proof (goes_on_again t r pg Hgo) as Hagain.
  destruct (poll_response t r pg) as [pg1 again]. cbn [snd] in Hagain. subst again.
  apply IH.
Qed.

(** C4. A status response that reports [completed] is handed to
    [handleAnalysisComplete], one that reports [error] to [showError] with
    the reported message (or "Analysis failed"); in both cases no timer is
    set and no request is sent. A polling session therefore ends with that
    response: whatever the server would have answered afterwards is never
    asked for, and the session has sent the request it started with and at
    most one more for each response that came before the terminal one. When
    the responses before it all let the loop go on, the session ends in the
    page that handler leaves. The completion notice is shown once. *)
Theorem polling_stops_on_terminal_status now data pg :
  resp_status data = "completed" ∨ resp_status data = "error" →
  poll_response now (Response data) pg
  = (if decide (resp_status data = "completed")
     then handleAnalysisComplete now (resp_report_word_count data) pg
     else showError now (Some (or_else (resp_error_message data) "Analysis failed")) pg,
     false)
  ∧ requests (poll_response now (Response data) pg).1 = requests pg
  ∧ (resp_status data = "completed" →
     notifications (poll_response now (Response data) pg).1
     = (λ shown, shown ++ [{| notice := Completed (resp_report_word_count data);
                              notice_type := "success"; notice_duration := 8000 |}])
         <$> notifications pg)
  ∧ (∀ before rest,
       polling_session (before ++ (now, Response data) :: rest) pg
       = polling_session (before ++ [(now, Response data)]) pg
       ∧ (length (requests (polling_session (before ++ (now, Response data) :: rest) pg))
          ≤ length (requests pg) + 1 + length before)%nat
       ∧ (Forall goes_on before →
          polling_session (before ++ (now, Response data) :: rest) pg
          = (if decide (resp_status data = "completed")
             then handleAnalysisComplete now (resp_report_word_count data)
                    (polling_session before pg)
             else showError now
                    (Some (or_else (resp_error_message data) "Analysis failed"))
                    (polling_session before pg)))).
Proof.
  intros Hterminal.
  assert (∀ pg', poll_response now (Response data) pg'
    = (if decide (resp_status data = "completed")
       then handleAnalysisComplete now (resp_report_word_count data) pg'
       else showError now (Some (or_else (resp_error_message data) "Analysis failed")) pg',
       false)) as Hstep.
  { intros pg'. unfold poll_response.
    destruct (decide (resp_status data = "completed")); [done|].
    destruct (decide (resp_status data = "error")); [done|].
    by destruct Hterminal. }
  split_and!.
  - apply Hstep.
  - apply poll_response_requests.
  - intros Hdone. rewrite Hstep. rewrite decide_True by done. cbn [fst].
    apply handleAnalysisComplete_session.
  - intros before rest. unfold polling_session.
    assert (poll_await (before ++ (now, Response data) :: rest) (startProgressPolling pg)
            = poll_await (before ++ [(now, Response data)]) (startProgressPolling pg)) as ->.
    { apply poll_await_stops. intros pg'. by rewrite Hstep. }
    split_and!; [done| |].
    + etrans; [apply poll_await_requests_terminal; intros pg'; by rewrite Hstep|].
      unfold startProgressPolling, poll_request. page_simpl.
      rewrite length_app. simpl. lia.
    + intros Hgo. rewrite poll_await_app by done. cbn [poll_await]. rewrite Hstep.
      by destruct (decide (resp_status data = "completed")).
Qed.

(** ** Time display *)

(** C7, as the code has it. On a tick the elapsed time is the whole number
    of seconds in [now - startTime]. With a displayed progress [p] such that
    [0 < p < 100], the remaining time shown is
    [max(0, floor((elapsed / p) * 100 - elapsed))], a whole number of
    seconds computed in binary64 in that order, and the completion time is
    [now] plus that many seconds; with [p = 0], no width yet, or [p >= 100],
    the remaining and completion times are left as they were. *)
Theorem tick_time_estimate now pg start width :
  startTime pg = Some start →
  progress_fill pg = Some width →
  is_Some (remaining_time pg) →
  elapsed_time (tick now pg)
  = (λ _, formatTime (elapsed_seconds now start)) <$> elapsed_time pg
  ∧ ((0 < default 0 width < 100)%N →
     remaining_time (tick now pg)
     = Some (formatTime (remaining_seconds (elapsed_seconds now start) (default 0%N width)))
     ∧ (0 ≤ remaining_seconds (elapsed_seconds now start) (default 0%N width))%Z
     ∧ completion_time (tick now pg)
       = (λ _, Some (now + remaining_seconds (elapsed_seconds now start)
                                             (default 0%N width) * 1000)%Z)
           <$> completion_time pg)
  ∧ ((default 0 width = 0 ∨ 100 ≤ default 0 width)%N →
     remaining_time (tick now pg) = remaining_time pg
     ∧ completion_time (tick now pg) = completion_time pg).
Proof.
  intros Hstart Hfill [shown Hremaining]. unfold tick. rewrite Hstart. cbn [default].
  set (elapsed := elapsed_seconds now start).
  set (p := default 0%N width).
  split_and!.
  - destruct (elapsed_time pg) eqn:He; page_simpl; rewrite ?Hfill, ?Hremaining;
      destruct ((0 <? p)%N && (p <? 100)%N); page_cases.
  - intros [Hlo Hhi].
    assert ((0 <? p)%N && (p <? 100)%N = true) as Hin.
    { apply andb_true_iff. split; by apply N.ltb_lt. }
    split_and!; [| unfold remaining_seconds; lia |];
      destruct (elapsed_time pg) eqn:He; page_simpl; rewrite ?Hfill, ?Hremaining;
      fold p; rewrite Hin; page_cases.
  - intros Hout.
    assert ((0 <? p)%N && (p <? 100)%N = false) as Hin.
    { apply andb_false_iff. destruct Hout as [H0|H100].
      - left. apply N.ltb_ge. lia.
      - right. by apply N.ltb_ge. }
    split; destruct (elapsed_time pg) eqn:He; page_simpl; rewrite ?Hfill, ?Hremaining;
      fold p; rewrite Hin; page_cases.
Qed.

(** ** The theorems at concrete pages *)

(** C1 at a concrete page: after 10 was displayed, a response reporting 5
    sets the bar to 5; and after a completion (100), a pushed event for 40
    sets it to 40. *)
Lemma lower_percentage_is_displayed :
  displayed (apply_events [(1, Pushed (progress_event 10))]%Z tracking) = Some 10%N
  ∧ displayed
      (apply_events
         [(1, Pushed (progress_event 10));
          (2, Polled (Response (status_data "processing" (Some 5%N))))]%Z tracking)
    = Some 5%N
  ∧ displayed
      (apply_events
         [(1, Polled (Response (status_data "completed" None)));
          (2, Pushed (progress_event 40))]%Z tracking)
    = Some 40%N.
Proof. vm_compute. done. Qed.

Lemma displayed_progress_is_last_written_witness :
  is_Some (progress_fill tracking)
  ∧ displayed (apply_events [(1, Pushed (progress_event 30))]%Z tracking) = Some 30%N.
Proof.
  split; [by eexists|].
  apply (displayed_progress_is_last_written [(1, Pushed (progress_event 30))]%Z tracking).
  by eexists.
Defined.

(** C3 at a concrete page: the socket had sent one [join_analysis]; after a
    restart it has still sent that one only, and the feed holds one entry. *)
Lemma restart_sends_no_join :
  analysisSocket tracking = Some ["job-1"]
  ∧ analysisSocket (restartAnalysis 5000 tracking) = Some ["job-1"]
  ∧ analysis_feed (restartAnalysis 5000 tracking)
    = Some [{| feed_timestamp := 5000; feed_message := "Analysis restarted" |}].
Proof. vm_compute. done. Qed.

Lemma polling_stops_on_terminal_status_witness :
  (poll_response 7 (Response (status_data "completed" None)) tracking).2 = false
  ∧ requests
      (polling_session
         [(7, Response (status_data "completed" None));
          (9, Response (status_data "processing" (Some 50%N)))]%Z tracking)
    = ["/api/analysis_status/job-1"].
Proof.
  destruct (polling_stops_on_terminal_status 7 (status_data "completed" None) tracking)
    as (Hstep & _ & _ & Hsession).
  { left. reflexivity. }
  split.
  - rewrite Hstep. reflexivity.
  - pose proof (proj1 (Hsession [] [(9, Response (status_data "processing" (Some 50%N)))]%Z))
      as Hsame.
    cbn [app] in Hsame. rewrite Hsame. reflexivity.
Defined.

Lemma feed_keeps_most_recent_50_witness :
  length full_feed = 50
  ∧ analysis_feed (add_feed_items [(99, Some "new")]%Z with_full_feed)
    = Some (drop 1 full_feed ++ [{| feed_timestamp := 99; feed_message := "new" |}]).
Proof.
  split; [reflexivity|].
  destruct (feed_keeps_most_recent_50 [(99, Some "new")]%Z with_full_feed full_feed)
    as [-> _].
  - reflexivity.
  - apply Nat.eq_le_incl. reflexivity.
  - reflexivity.
Defined.

(** C7 at concrete ticks. One second after the start with 3 percent
    displayed, the page shows 32 seconds, where the formula of the
    specification gives a number between 32 and 33. And 29 seconds after
    the start with 50 percent displayed, the page shows 28 seconds: the
    quotient [29 / 50] is rounded before it is multiplied by 100, where
    [29 / (50 / 100)] is 58 exactly and the formula of the specification
    gives 29. *)
Lemma remaining_time_is_floored :
  remaining_time (tick 1000 at_three_percent) = Some "00:32"
  ∧ SFltb (number_of_Z 32) (spec_estimatedRemaining 1 3) = true
  ∧ SFltb (spec_estimatedRemaining 1 3) (number_of_Z 33) = true
  ∧ remaining_time (tick 29000 (set_progress_fill (Some (Some 50%N)) tracking))
    = Some "00:28"
  ∧ spec_estimatedRemaining 29 50 = number_of_Z 29.
Proof. vm_compute. done. Qed.

Lemma tick_time_estimate_witness :
  startTime at_three_percent = Some 0%Z
  ∧ elapsed_time (tick 1000 at_three_percent) = Some "00:01".
Proof.
  split; [reflexivity|].
  destruct (tick_time_estimate 1000 at_three_percent 0 (Some 3%N)) as (-> & _).
  - reflexivity.
  - reflexivity.
  - by eexists.
  - reflexivity.
Defined.

End AnalysisFacts.

(** * Further properties of the connection manager *)

Module WebSocketMore.
Import WebSocket.

Section Rooms.

Context {App : Type}.
Implicit Types (w : World App) (m : WebSocketManager) (h : HandlerRef).

(** ** The retained set *)

Lemma set_add_NoDup x s : NoDup s → NoDup (set_add x s).
Proof.
  intros Hs. unfold set_add. case_decide; [done|].
  apply NoDup_app. split_and!; [done| |apply NoDup_singleton].
  intros y Hy Hyx. apply list_elem_of_singleton in Hyx. by subst y.
Qed.

Lemma set_add_elem x y s : y ∈ set_add x s ↔ y = x ∨ y ∈ s.
Proof.
  unfold set_add. case_decide.
  - split; [by right|]. by intros [->|].
  - rewrite elem_of_app, list_elem_of_singleton. tauto.
Qed.

Lemma set_delete_elem x y s : y ∈ set_delete x s ↔ y ≠ x ∧ y ∈ s.
Proof. unfold set_delete. by rewrite list_elem_of_filter. Qed.

Lemma set_delete_not_elem x s : x ∉ s → set_delete x s = s.
Proof.
  intros Hx. unfold set_delete. induction s as [|y s IH]; [done|].
  apply not_elem_of_cons in Hx as [Hne Hs].
  rewrite filter_cons_True by done. by rewrite IH.
Qed.

Lemma set_delete_add x s : x ∉ s → set_delete x (set_add x s) = s.
Proof.
  intros Hx. unfold set_add. rewrite decide_False by done.
  unfold set_delete. rewrite filter_app.
  fold (set_delete x s). rewrite set_delete_not_elem by done.
  rewrite filter_cons_False, filter_nil by (intros Hne; by apply Hne).
  apply app_nil_r.
Qed.

(** X1. On a connected manager [joinAnalysis] sends one [join_analysis] and
    retains the identifier; joining a room that is already retained sends
    the message again but leaves the set as it is, so the set never lists a
    room twice. *)
Theorem joinAnalysis_connected analysisId w s :
  socket (wsManager w) = Some s → isConnected (wsManager w) = true →
  (joinAnalysis analysisId w).2 = true
  ∧ sent (joinAnalysis analysisId w).1 = sent w ++ [join_analysis analysisId]
  ∧ (∀ r, r ∈ analysisRooms (wsManager (joinAnalysis analysisId w).1)
          ↔ r = analysisId ∨ r ∈ analysisRooms (wsManager w))
  ∧ (NoDup (analysisRooms (wsManager w)) →
     NoDup (analysisRooms (wsManager (joinAnalysis analysisId w).1)))
  ∧ analysisRooms (wsManager (joinAnalysis analysisId (joinAnalysis analysisId w).1).1)
    = analysisRooms (wsManager (joinAnalysis analysisId w).1)
  ∧ sent (joinAnalysis analysisId (joinAnalysis analysisId w).1).1
    = sent w ++ [join_analysis analysisId; join_analysis analysisId].
Proof.
  intros Hs Hon. unfold joinAnalysis. rewrite Hs, Hon. simpl. rewrite Hs, Hon. simpl.
  split_and!; try done.
  - intros r. apply set_add_elem.
  - apply set_add_NoDup.
  - unfold set_add at 1. rewrite decide_True; [done|].
    apply set_add_elem. by left.
  - by rewrite <- app_assoc.
Qed.

(** X2. [leaveAnalysis] needs a socket but not a connection: with a socket
    it sends [leave_analysis] and removes the identifier from the retained
    set, keeping the other rooms in their order, whether the manager is
    connected or not; without a socket it does nothing. Leaving a room
    right after joining it gives back the set there was. *)
Theorem leaveAnalysis_removes analysisId w :
  (socket (wsManager w) = None → leaveAnalysis analysisId w = (w, false))
  ∧ (is_Some (socket (wsManager w)) →
     (leaveAnalysis analysisId w).2 = true
     ∧ sent (leaveAnalysis analysisId w).1 = sent w ++ [leave_analysis analysisId]
     ∧ analysisRooms (wsManager (leaveAnalysis analysisId w).1)
       = filter (λ r, r ≠ analysisId) (analysisRooms (wsManager w))
     ∧ (analysisId ∉ analysisRooms (wsManager (leaveAnalysis analysisId w).1)))
  ∧ (is_Some (socket (wsManager w)) → isConnected (wsManager w) = true →
     (analysisId ∉ analysisRooms (wsManager w)) →
     analysisRooms (wsManager (leaveAnalysis analysisId (joinAnalysis analysisId w).1).1)
     = analysisRooms (wsManager w)).
Proof.
  unfold leaveAnalysis, joinAnalysis. split_and!.
  - by intros ->.
  - intros [s Hs]. rewrite Hs. simpl. split_and!; try done.
    rewrite set_delete_elem. tauto.
  - intros [s Hs] Hon Hnew. rewrite Hs, Hon. simpl. rewrite Hs.
    simpl. by apply set_delete_add.
Qed.

(** ** Reachable states *)

Lemma rooms_consistent_same_manager w w' :
  wsManager w' = wsManager w → rooms_consistent w → rooms_consistent w'.
Proof. unfold rooms_consistent. by intros ->. Qed.

Lemma rooms_consistent_handlers (f : WebSocketManager → WebSocketManager) w :
  (∀ m, analysisRooms (f m) = analysisRooms m ∧ socket (f m) = socket m) →
  rooms_consistent w → rooms_consistent (with_manager f w).
Proof.
  intros Hf. unfold rooms_consistent. simpl.
  by destruct (Hf (wsManager w)) as [-> ->].
Qed.

Lemma forEach_handlers_consistent (code : Code App) event data n :
  (∀ h d w', rooms_consistent w' → rooms_consistent (code h d w').1) →
  ∀ k w, rooms_consistent w → rooms_consistent (forEach_handlers code event data k n w).1.
Proof.
  intros Hcode. induction n as [|n IH]; intros k w Hw; simpl; [done|].
  destruct (handlers_of event (wsManager w) !! k) as [h|]; [|by apply IH].
  pose proof (Hcode h data w Hw) as Hw1.
  destruct (code h data w) as [w1 r]. simpl in Hw1.
  set (w2 := match r with Returned => w1 | Threw e => console_error e w1 end).
  assert (rooms_consistent w2) as Hw2 by (subst w2; by destruct r).
  specialize (IH (S k) w2 Hw2).
  by destruct (forEach_handlers code event data (S k) n w2).
Qed.

Lemma triggerEvent_consistent (code : Code App) event data w :
  (∀ h d w', rooms_consistent w' → rooms_consistent (code h d w').1) →
  rooms_consistent w → rooms_consistent (triggerEvent code event data w).1.
Proof.
  intros Hcode Hw. unfold triggerEvent.
  destruct (eventHandlers (wsManager w) !! event); [|done].
  by apply forEach_handlers_consistent.
Qed.

Lemma replay_manager rooms w :
  wsManager (foldl (λ w' r, socket_emit (join_analysis r) w') w rooms) = wsManager w
  ∧ sent (foldl (λ w' r, socket_emit (join_analysis r) w') w rooms)
    = sent w ++ (join_analysis <$> rooms).
Proof.
  revert w. induction rooms as [|r rooms IH]; intros w; simpl.
  - by rewrite app_nil_r.
  - destruct (IH (socket_emit (join_analysis r) w)) as [-> ->]. simpl.
    by rewrite <- app_assoc.
Qed.

Lemma rejoinAnalysisRooms_manager w w' :
  rejoinAnalysisRooms w = Some w' →
  wsManager w' = wsManager w
  ∧ sent w' = sent w ++ (join_analysis <$> analysisRooms (wsManager w)).
Proof.
  unfold rejoinAnalysisRooms.
  destruct (analysisRooms (wsManager w)) as [|r rooms] eqn:Hrooms.
  - intros [= <-]. by rewrite app_nil_r.
  - destruct (socket (wsManager w)); [|done].
    intros [= <-]. apply (replay_manager (r :: rooms) w).
Qed.

Lemma act_consistent (code : Code App) a w :
  (∀ h d w', rooms_consistent w' → rooms_consistent (code h d w').1) →
  rooms_consistent w → rooms_consistent (act code a w).
Proof.
  intros Hcode Hw. destruct a; simpl.
  - unfold initialize. destruct (io_defined w); [|done].
    destruct Hw as [Hdup _]. split; [done|]. simpl. done.
  - unfold joinAnalysis.
    destruct (socket (wsManager w)) as [s|] eqn:Hs; [|done].
    destruct (isConnected (wsManager w)); [|done].
    destruct Hw as [Hdup _]. split; simpl.
    + by apply set_add_NoDup.
    + by rewrite Hs.
  - unfold leaveAnalysis.
    destruct (socket (wsManager w)) as [s|] eqn:Hs; [|done].
    destruct Hw as [Hdup _]. split; simpl.
    + by apply NoDup_filter.
    + by rewrite Hs.
  - by apply rooms_consistent_handlers.
  - apply rooms_consistent_handlers; [|done]. intros m. unfold off.
    destruct (eventHandlers m !! event); [|done]. by destruct (indexOf handler l).
  - unfold emit. destruct (socket (wsManager w)); [|done].
    by destruct (isConnected (wsManager w)).
  - unfold disconnect. destruct (socket (wsManager w)); [|done].
    split; simpl; [apply NoDup_nil_2|done].
  - unfold reconnect. destruct (socket (wsManager w)) as [s|] eqn:Hs.
    + destruct Hw as [Hdup _]. split; simpl; done.
    + unfold initialize. destruct (io_defined w); [|done].
      destruct Hw as [Hdup _]. split; simpl; done.
  - unfold on_connect. fold (connected w).
    assert (rooms_consistent (connected w)) as Hc.
    { destruct Hw as [Hdup Hnone]. split; simpl; done. }
    destruct (rejoinAnalysisRooms (connected w)) as [w3|] eqn:Hre; [|done].
    apply triggerEvent_consistent; [done|].
    apply (rooms_consistent_same_manager (connected w)); [|done].
    by apply rejoinAnalysisRooms_manager.
  - unfold on_disconnect. apply triggerEvent_consistent; [done|].
    destruct Hw as [Hdup Hnone]. split; simpl; done.
  - unfold on_connect_error. by apply triggerEvent_consistent.
  - unfold on_reconnect. by apply triggerEvent_consistent.
  - unfold on_reconnect_error. simpl. case_decide; destruct Hw; split; simpl; done.
  - unfold on_analysis_event. by apply triggerEvent_consistent.
  - unfold on_ping. by destruct (socket (wsManager w)).
Qed.

(** X3. Whatever methods are called and whatever socket events arrive, in
    any order, the retained set never lists a room twice and a manager
    without a socket retains no room, provided the registered handlers keep
    it so (as they do when they only use the manager's methods). Hence the
    replay in the [connect] listener never fails for want of a socket. *)
Theorem rooms_stay_consistent (code : Code App) actions w :
  (∀ h d w', rooms_consistent w' → rooms_consistent (code h d w').1) →
  rooms_consistent w →
  rooms_consistent (run code actions w)
  ∧ is_Some (rejoinAnalysisRooms (run code actions w)).
Proof.
  intros Hcode Hw.
  assert (rooms_consistent (run code actions w)) as Hrun.
  { revert w Hw. induction actions as [|a actions IH]; intros w Hw; simpl; [done|].
    apply IH. by apply act_consistent. }
  split; [done|].
  destruct Hrun as [_ Hnone]. unfold rejoinAnalysisRooms.
  destruct (analysisRooms (wsManager (run code actions w))) as [|r rooms] eqn:Hrooms;
    [by eexists|].
  destruct (socket (wsManager (run code actions w))); [by eexists|].
  by specialize (Hnone eq_refl).
Qed.

(** ** Replay *)

Lemma run_app (code : Code App) actions1 actions2 w :
  run code (actions1 ++ actions2) w = run code actions2 (run code actions1 w).
Proof. revert w. induction actions1 as [|a l IH]; intros w; simpl; [done|]. apply IH. Qed.

Lemma run_joins (code : Code App) ids :
  ∀ w s, socket (wsManager w) = Some s → isConnected (wsManager w) = true →
    sent (run code (call_joinAnalysis <$> ids) w) = sent w ++ (join_analysis <$> ids)
    ∧ (∀ r, r ∈ analysisRooms (wsManager (run code (call_joinAnalysis <$> ids) w))
            ↔ r ∈ ids ∨ r ∈ analysisRooms (wsManager w))
    ∧ (NoDup (analysisRooms (wsManager w)) →
       NoDup (analysisRooms (wsManager (run code (call_joinAnalysis <$> ids) w))))
    ∧ socket (wsManager (run code (call_joinAnalysis <$> ids) w)) = Some s
    ∧ eventHandlers (wsManager (run code (call_joinAnalysis <$> ids) w))
      = eventHandlers (wsManager w)
    ∧ status_shown (run code (call_joinAnalysis <$> ids) w) = status_shown w.
Proof.
  induction ids as [|id ids IH]; intros w s Hs Hon.
  - simpl. rewrite app_nil_r. split_and!; try done.
    intros r. rewrite elem_of_nil. tauto.
  - set (w1 := with_manager (λ m, set_analysisRooms (set_add id (analysisRooms m)) m)
                (socket_emit (join_analysis id) w)).
    assert (act code (call_joinAnalysis id) w = w1) as Hact.
    { simpl. unfold joinAnalysis. by rewrite Hs, Hon. }
    change (run code (call_joinAnalysis <$> id :: ids) w)
      with (run code (call_joinAnalysis <$> ids) (act code (call_joinAnalysis id) w)).
    rewrite Hact.
    destruct (IH w1 s Hs Hon) as (-> & Hin & Hdup & -> & -> & ->).
    subst w1. simpl. split_and!; try done.
    + by rewrite <- app_assoc.
    + intros r. rewrite Hin. simpl. rewrite set_add_elem, elem_of_cons. tauto.
    + intros Hnd. apply Hdup. simpl. by apply set_add_NoDup.
Qed.

Lemma on_connect_quiet (code : Code App) w s :
  socket (wsManager w) = Some s →
  (∀ h, h ∈ handlers_of "ws_connected" (wsManager w) → quiet code h) →
  wsManager (on_connect code w).1 = wsManager (connected w)
  ∧ sent (on_connect code w).1
    = sent w ++ (join_analysis <$> analysisRooms (wsManager w)).
Proof.
  intros Hs Hcon. unfold on_connect. fold (connected w).
  destruct (rejoinAnalysisRooms (connected w)) as [w3|] eqn:Hre.
  - destruct (rejoinAnalysisRooms_manager _ _ Hre) as [Hm Hsent].
    destruct (WebSocketFacts.triggerEvent_quiet code "ws_connected" PNull w3)
      as (-> & -> & _).
    + intros h Hin. apply Hcon. by rewrite Hm in Hin.
    + by rewrite Hm, Hsent.
  - unfold rejoinAnalysisRooms in Hre. simpl in Hre. rewrite Hs in Hre.
    by destruct (analysisRooms (wsManager w)).
Qed.

(** X4. Rooms joined on a connected manager are replayed after the
    transport drops and reconnects: the [connect] listener sends one
    [join_analysis] for every room that was joined, once each even if it was
    joined several times, marks the manager connected and resets the
    reconnect counter. (The handlers registered for [ws_disconnected] and
    [ws_connected], if any, act on the page only.) *)
Theorem rooms_replayed_after_reconnect (code : Code App) ids reason w s :
  socket (wsManager w) = Some s → isConnected (wsManager w) = true →
  analysisRooms (wsManager w) = [] →
  (∀ h, h ∈ handlers_of "ws_disconnected" (wsManager w) → quiet code h) →
  (∀ h, h ∈ handlers_of "ws_connected" (wsManager w) → quiet code h) →
  ∃ replayed,
    NoDup replayed ∧ (∀ r, r ∈ replayed ↔ r ∈ ids)
    ∧ sent (run code ((call_joinAnalysis <$> ids)
                        ++ [socket_disconnect reason; socket_connect]) w)
      = sent w ++ (join_analysis <$> ids) ++ (join_analysis <$> replayed)
    ∧ isConnected (wsManager (run code ((call_joinAnalysis <$> ids)
                        ++ [socket_disconnect reason; socket_connect]) w)) = true
    ∧ reconnectAttempts (wsManager (run code ((call_joinAnalysis <$> ids)
                        ++ [socket_disconnect reason; socket_connect]) w)) = 0.
Proof.
  intros Hs Hon Hrooms Hdis Hcon.
  destruct (run_joins code ids w s Hs Hon) as (Hsent & Hin & Hdup & Hs1 & Hev & _).
  set (w1 := run code (call_joinAnalysis <$> ids) w) in *.
  exists (analysisRooms (wsManager w1)).
  assert (run code ((call_joinAnalysis <$> ids) ++ [socket_disconnect reason; socket_connect]) w
          = run code [socket_disconnect reason; socket_connect] w1) as ->.
  { subst w1. apply run_app. }
  cbn [run act].
  destruct (WebSocketFacts.triggerEvent_quiet code "ws_disconnected" (PReason reason)
              (showConnectionStatus "Disconnected from server" "warning"
                 (with_manager (set_isConnected false) w1)))
    as (Hmd & Hsentd & _).
  { intros h Hh. apply Hdis. unfold handlers_of in Hh |- *. cbn in Hh.
    by rewrite <- Hev. }
  fold (on_disconnect code reason w1) in Hmd, Hsentd.
  destruct (on_connect_quiet code (on_disconnect code reason w1).1 s) as (Hmc & Hsentc).
  { rewrite Hmd. exact Hs1. }
  { intros h Hh. apply Hcon. unfold handlers_of in Hh |- *. rewrite Hmd in Hh.
    cbn in Hh. by rewrite <- Hev. }
  rewrite Hmc, Hsentc. cbn. rewrite !Hmd, Hsentd. cbn.
  split_and!; try done.
  - apply Hdup. rewrite Hrooms. apply NoDup_nil_2.
  - intros r. rewrite Hin, Hrooms, elem_of_nil. tauto.
  - rewrite Hsent. by rewrite <- app_assoc.
Qed.

(** ** Handlers that register handlers *)

Lemma forEach_handlers_extending (code : Code App) event data todo :
  ∀ finished later w,
    handlers_of event (wsManager w) = finished ++ todo ++ later →
    (∀ h d w', ∃ added,
       handlers_of event (wsManager (code h d w').1)
       = handlers_of event (wsManager w') ++ added) →
    forEach_handlers code event data (length finished) (length todo) w
    = call_in_order code data todo w
    ∧ ∃ added, handlers_of event
                 (wsManager (forEach_handlers code event data (length finished)
                               (length todo) w).1)
               = finished ++ todo ++ later ++ added.
Proof.
  induction todo as [|h todo IH]; intros finished later w Hhs Hext; simpl.
  - split; [done|]. exists []. by rewrite app_nil_r.
  - rewrite Hhs, lookup_app_r, Nat.sub_diag by done. simpl.
    destruct (Hext h data w) as [added Hadded].
    destruct (code h data w) as [w1 r]. simpl in Hadded.
    set (w2 := match r with Returned => w1 | Threw e => console_error e w1 end).
    assert (handlers_of event (wsManager w2)
            = (finished ++ [h]) ++ todo ++ (later ++ added)) as Hhs2.
    { replace (handlers_of event (wsManager w2)) with (handlers_of event (wsManager w1))
        by (subst w2; by destruct r).
      rewrite Hadded, Hhs. by rewrite <- !app_assoc. }
    destruct (IH (finished ++ [h]) (later ++ added) w2 Hhs2 Hext) as [Hsame [added' Hfinal]].
    rewrite length_app, Nat.add_1_r in Hsame, Hfinal. simpl in Hsame, Hfinal.
    rewrite Hsame in *. destruct (call_in_order code data todo w2) as [w3 calls].
    split; [done|]. exists (added ++ added'). simpl in *.
    rewrite Hfinal. by rewrite <- !app_assoc.
Qed.

(** X5. A handler that registers further handlers for the event being
    dispatched does not change the dispatch in progress: when handlers only
    ever add registrations for that event, [triggerEvent] calls exactly the
    handlers that were registered when it started, in order, and the ones
    added meanwhile are registered after them for the next dispatch. *)
Theorem triggerEvent_ignores_new_handlers (code : Code App) event data w hs :
  eventHandlers (wsManager w) !! event = Some hs →
  (∀ h d w', ∃ added,
     handlers_of event (wsManager (code h d w').1)
     = handlers_of event (wsManager w') ++ added) →
  (triggerEvent code event data w).2.*1 = hs
  ∧ ∃ added, handlers_of event (wsManager (triggerEvent code event data w).1)
             = hs ++ added.
Proof.
  intros Hev Hext. unfold triggerEvent. rewrite Hev.
  destruct (forEach_handlers_extending code event data hs [] [] w)
    as [Hsame [added Hfinal]].
  - unfold handlers_of. rewrite Hev. simpl. by rewrite app_nil_r.
  - done.
  - simpl in Hsame, Hfinal. rewrite Hsame in *. split.
    + apply WebSocketFacts.call_in_order_refs.
    + by exists added.
Qed.

(** ** The deferred join of [initializeWebSocket] *)

Lemma call_in_order_app (code : Code App) data hs1 hs2 w :
  call_in_order code data (hs1 ++ hs2) w
  = let '(w1, calls1) := call_in_order code data hs1 w in
    let '(w2, calls2) := call_in_order code data hs2 w1 in
    (w2, calls1 ++ calls2).
Proof.
  revert w. induction hs1 as [|h hs1 IH]; intros w.
  - simpl. by destruct (call_in_order code data hs2 w).
  - simpl. destruct (code h data w) as [w1 r].
    rewrite IH.
    destruct (call_in_order code data hs1 _) as [w3 calls1].
    by destruct (call_in_order code data hs2 w3).
Qed.

Lemma count_join id rooms :
  NoDup rooms →
  length (filter (λ msg, msg = join_analysis id) (join_analysis <$> rooms))
  = if decide (id ∈ rooms) then 1 else 0.
Proof.
  induction 1 as [|r rooms Hr Hdup IH]; [done|].
  cbn [fmap list_fmap]. destruct (decide (r = id)) as [->|Hne].
  - rewrite filter_cons_True by done. cbn [length]. rewrite IH.
    rewrite decide_False by done. rewrite decide_True by left. done.
  - rewrite filter_cons_False by congruence. rewrite IH.
    destruct (decide (id ∈ rooms)) as [Hin|Hout].
    + rewrite decide_True by (by right). done.
    + rewrite decide_False; [done|]. rewrite not_elem_of_cons. split; congruence.
Qed.

(** One connect on a manager that has a socket, with the deferred join
    registered among handlers that act on the page only. *)
Lemma on_connect_deferred_join (code : Code App) handler analysisId w hs1 hs2 :
  is_Some (socket (wsManager w)) →
  handlers_of "ws_connected" (wsManager w) = hs1 ++ handler :: hs2 →
  (∀ h, h ∈ hs1 ++ hs2 → quiet code h) →
  (∀ d w', code handler d w' = join_when_connected analysisId d w') →
  wsManager (on_connect code w).1
  = set_analysisRooms (set_add analysisId (analysisRooms (wsManager w)))
      (wsManager (connected w))
  ∧ sent (on_connect code w).1
    = sent w ++ (join_analysis <$> analysisRooms (wsManager w))
        ++ [join_analysis analysisId].
Proof.
  intros [s Hs] Hhs Hquiet Hcode. unfold on_connect. fold (connected w).
  destruct (rejoinAnalysisRooms (connected w)) as [w3|] eqn:Hre; cycle 1.
  { unfold rejoinAnalysisRooms in Hre. cbn in Hre. rewrite Hs in Hre.
    by destruct (analysisRooms (wsManager w)). }
  destruct (rejoinAnalysisRooms_manager _ _ Hre) as [Hm3 Hsent3].
  assert (handlers_of "ws_connected" (wsManager w3) = hs1 ++ handler :: hs2) as Hhs3.
  { rewrite Hm3. exact Hhs. }
  assert (eventHandlers (wsManager w3) !! "ws_connected" = Some (hs1 ++ handler :: hs2))
    as Hev3.
  { unfold handlers_of in Hhs3.
    destruct (eventHandlers (wsManager w3) !! "ws_connected") as [l|]; cbn in Hhs3.
    - by rewrite Hhs3.
    - by destruct hs1. }
  unfold triggerEvent. rewrite Hev3.
  pose proof (WebSocketFacts.forEach_handlers_stable code "ws_connected" PNull
                (hs1 ++ handler :: hs2) [] w3) as Hstable.
  cbn [length app] in Hstable. rewrite Hstable; [|exact Hhs3|]; cycle 1.
  { intros h d w' Hin. apply elem_of_app in Hin as [Hin|Hin].
    - assert (quiet code h) as Hq by (apply Hquiet, elem_of_app; by left).
      by destruct (Hq d w') as (-> & _).
    - apply elem_of_cons in Hin as [->|Hin].
      + rewrite Hcode. unfold join_when_connected, joinAnalysis. cbn.
        destruct (socket (wsManager w')); [|done].
        by destruct (isConnected (wsManager w')).
      + assert (quiet code h) as Hq by (apply Hquiet, elem_of_app; by right).
        by destruct (Hq d w') as (-> & _). }
  clear Hstable. rewrite call_in_order_app.
  destruct (WebSocketFacts.call_in_order_quiet code PNull hs1
              (λ h Hin, Hquiet h (proj2 (elem_of_app _ _ _) (or_introl Hin))) w3)
    as (Hma & Hsenta & _).
  destruct (call_in_order code PNull hs1 w3) as [wa calls1]. cbn [fst] in Hma, Hsenta.
  cbn [call_in_order]. rewrite Hcode. unfold join_when_connected.
  assert (joinAnalysis analysisId wa
          = (with_manager (λ m, set_analysisRooms (set_add analysisId (analysisRooms m)) m)
               (socket_emit (join_analysis analysisId) wa), true)) as ->.
  { unfold joinAnalysis. rewrite Hma, Hm3. cbn. by rewrite Hs. }
  cbn [fst].
  match goal with |- context [call_in_order code PNull hs2 ?wb] =>
    destruct (WebSocketFacts.call_in_order_quiet code PNull hs2
                (λ h Hin, Hquiet h (proj2 (elem_of_app _ _ _) (or_intror Hin))) wb)
      as (Hmc & Hsentc & _);
    destruct (call_in_order code PNull hs2 wb) as [wc calls2] end.
  cbn [fst] in *. rewrite Hmc, Hsentc. cbn. rewrite Hma, Hsenta, Hm3, Hsent3.
  split; [done|]. cbn. by rewrite <- app_assoc.
Qed.

(** X6. [initializeWebSocket(analysisId)] on a page with Socket.IO, called
    while the manager is disconnected, sends nothing at once and registers a
    handler after those already registered for [ws_connected]. When the
    other handlers for [ws_connected] and [ws_disconnected] act on the page
    only (as those of [setupConnectionMonitoring] do), the first connect
    replays the retained rooms and the handler then joins the room, which is
    retained from then on; and each time the transport drops and connects
    again, [join_analysis] for that room is sent twice, once in the replay
    and once more by the handler. On any connect at which the handler is
    registered, it adds one [join_analysis] after the replay: the room is
    asked for twice when it is retained and once when it is not (after
    [leaveAnalysis] or [disconnect()]). *)
Theorem initializeWebSocket_joins_on_connect (code : Code App) handler analysisId w :
  io_defined w = true →
  isConnected (wsManager w) = false →
  (∀ h, h ∈ handlers_of "ws_connected" (wsManager w) → quiet code h) →
  (∀ h, h ∈ handlers_of "ws_disconnected" (wsManager w) → quiet code h) →
  (∀ d w', code handler d w' = join_when_connected analysisId d w') →
  let w0 := initializeWebSocket handler analysisId w in
  let w1 := (on_connect code w0).1 in
  sent w0 = sent w
  ∧ handlers_of "ws_connected" (wsManager w0)
    = handlers_of "ws_connected" (wsManager w) ++ [handler]
  ∧ sent w1
    = sent w ++ (join_analysis <$> analysisRooms (wsManager w))
        ++ [join_analysis analysisId]
  ∧ analysisRooms (wsManager w1) = set_add analysisId (analysisRooms (wsManager w))
  ∧ (analysisId ∈ analysisRooms (wsManager w1))
  ∧ (∀ reasons,
       sent (run code (reconnections reasons) w1)
       = sent w1
           ++ concat (replicate (length reasons)
                        ((join_analysis <$> analysisRooms (wsManager w1))
                           ++ [join_analysis analysisId]))
       ∧ analysisRooms (wsManager (run code (reconnections reasons) w1))
         = analysisRooms (wsManager w1))
  ∧ (∀ w2 hs1 hs2,
       is_Some (socket (wsManager w2)) →
       handlers_of "ws_connected" (wsManager w2) = hs1 ++ handler :: hs2 →
       (∀ h, h ∈ hs1 ++ hs2 → quiet code h) →
       NoDup (analysisRooms (wsManager w2)) →
       sent (on_connect code w2).1
       = sent w2 ++ (join_analysis <$> analysisRooms (wsManager w2))
           ++ [join_analysis analysisId]
       ∧ length (filter (λ msg, msg = join_analysis analysisId)
                   ((join_analysis <$> analysisRooms (wsManager w2))
                      ++ [join_analysis analysisId]))
         = if decide (analysisId ∈ analysisRooms (wsManager w2)) then 2 else 1).
Proof.
  intros Hio Hoff Hcon Hdis Hcode w0 w1.
  set (hs := handlers_of "ws_connected" (wsManager w)) in *.
  (* The call. *)
  assert (wsManager w0
          = on "ws_connected" handler
              (set_socket (Some {| sock_options := io_options (wsManager w);
                                   sock_open := true |}) (wsManager w))
          ∧ sent w0 = sent w) as (Hm0 & Hsent0).
  { subst w0. unfold initializeWebSocket, initialize. rewrite Hio. cbn.
    by rewrite Hoff. }
  assert (handlers_of "ws_connected" (wsManager w0) = hs ++ [handler]) as Hhs0.
  { rewrite Hm0. by rewrite WebSocketFacts.handlers_of_on. }
  assert (handlers_of "ws_disconnected" (wsManager w0)
          = handlers_of "ws_disconnected" (wsManager w)) as Hhd0.
  { rewrite Hm0. by rewrite WebSocketFacts.handlers_of_on_ne. }
  assert (analysisRooms (wsManager w0) = analysisRooms (wsManager w)) as Hrooms0.
  { by rewrite Hm0. }
  (* The first connect. *)
  destruct (on_connect_deferred_join code handler analysisId w0 hs [])
    as (Hm1 & Hsent1).
  { rewrite Hm0. by eexists. }
  { exact Hhs0. }
  { intros h Hin. rewrite app_nil_r in Hin. by apply Hcon. }
  { exact Hcode. }
  fold w1 in Hm1, Hsent1. rewrite Hrooms0, Hsent0 in Hsent1. rewrite Hrooms0 in Hm1.
  (* One drop and connect, from a state in which the room is retained. *)
  assert (∀ reason w2,
    is_Some (socket (wsManager w2)) →
    eventHandlers (wsManager w2) = eventHandlers (wsManager w0) →
    (analysisId ∈ analysisRooms (wsManager w2)) →
    let w3 := run code [socket_disconnect reason; socket_connect] w2 in
    sent w3 = sent w2 ++ (join_analysis <$> analysisRooms (wsManager w2))
                ++ [join_analysis analysisId]
    ∧ socket (wsManager w3) = socket (wsManager w2)
    ∧ eventHandlers (wsManager w3) = eventHandlers (wsManager w2)
    ∧ analysisRooms (wsManager w3) = analysisRooms (wsManager w2)) as Hcycle.
  { intros reason w2 Hs2 Hev2 Hin2 w3. subst w3. cbn [run act].
    destruct (WebSocketFacts.triggerEvent_quiet code "ws_disconnected" (PReason reason)
                (showConnectionStatus "Disconnected from server" "warning"
                   (with_manager (set_isConnected false) w2)))
      as (Hmd & Hsentd & _).
    { intros h Hin. apply Hdis. rewrite <- Hhd0.
      unfold handlers_of in Hin |- *. cbn in Hin. by rewrite <- Hev2. }
    fold (on_disconnect code reason w2) in Hmd, Hsentd.
    destruct (on_connect_deferred_join code handler analysisId
                (on_disconnect code reason w2).1 hs [])
      as (Hmc & Hsentc).
    { by rewrite Hmd. }
    { unfold handlers_of. rewrite Hmd. cbn. rewrite Hev2. exact Hhs0. }
    { intros h Hin. rewrite app_nil_r in Hin. by apply Hcon. }
    { exact Hcode. }
    rewrite Hmc, Hsentc. cbn. rewrite !Hmd, Hsentd. cbn.
    unfold set_add. rewrite decide_True by done. done. }
  (* Any number of them. *)
  assert (∀ reasons w2,
    is_Some (socket (wsManager w2)) →
    eventHandlers (wsManager w2) = eventHandlers (wsManager w0) →
    (analysisId ∈ analysisRooms (wsManager w2)) →
    sent (run code (reconnections reasons) w2)
    = sent w2 ++ concat (replicate (length reasons)
                           ((join_analysis <$> analysisRooms (wsManager w2))
                              ++ [join_analysis analysisId]))
    ∧ analysisRooms (wsManager (run code (reconnections reasons) w2))
      = analysisRooms (wsManager w2)) as Hcycles.
  { induction reasons as [|reason reasons IH]; intros w2 Hs2 Hev2 Hin2.
    - cbn. by rewrite app_nil_r.
    - change (reconnections (reason :: reasons))
        with ([socket_disconnect reason; socket_connect] ++ reconnections reasons).
      rewrite run_app.
      destruct (Hcycle reason w2 Hs2 Hev2 Hin2) as (Hsent3 & Hs3 & Hev3 & Hrooms3).
      destruct (IH (run code [socket_disconnect reason; socket_connect] w2))
        as (-> & ->).
      + by rewrite Hs3.
      + by rewrite Hev3.
      + by rewrite Hrooms3.
      + rewrite Hsent3, Hrooms3. cbn [length replicate concat].
        split; [|done]. by rewrite <- !app_assoc. }
  split_and!.
  - exact Hsent0.
  - exact Hhs0.
  - exact Hsent1.
  - by rewrite Hm1.
  - rewrite Hm1. cbn. apply set_add_elem. by left.
  - intros reasons. apply Hcycles.
    + rewrite Hm1. cbn. rewrite Hm0. by eexists.
    + by rewrite Hm1.
    + rewrite Hm1. cbn. apply set_add_elem. by left.
  - intros w2 hs1 hs2 Hs2 Hhs2 Hquiet Hdup. split.
    + by apply (on_connect_deferred_join code handler analysisId w2 hs1 hs2).
    + rewrite filter_app, length_app, count_join by done.
      rewrite filter_cons_True, filter_nil by done. cbn [length].
      by destruct (decide (analysisId ∈ analysisRooms (wsManager w2))).
Qed.

End Rooms.

(** ** The theorems at concrete states *)

Lemma joinAnalysis_connected_witness :
  isConnected (wsManager (connected initialized)) = true
  ∧ sent (joinAnalysis "job-1" (joinAnalysis "job-1" (connected initialized)).1).1
    = [join_analysis "job-1"; join_analysis "job-1"]
  ∧ analysisRooms
      (wsManager (joinAnalysis "job-1" (joinAnalysis "job-1" (connected initialized)).1).1)
    = ["job-1"].
Proof.
  split; [reflexivity|].
  destruct (joinAnalysis_connected "job-1" (connected initialized)
              {| sock_options := io_options constructor; sock_open := true |})
    as (_ & _ & _ & _ & -> & ->); [reflexivity|reflexivity|].
  split; reflexivity.
Defined.

Lemma rooms_stay_consistent_witness :
  is_Some
    (rejoinAnalysisRooms
       (run first_throws
          [call_initialize; socket_connect; call_joinAnalysis "a";
           call_joinAnalysis "a"; call_disconnect true; call_reconnect; socket_connect]
          (fresh true))).
Proof.
  apply (rooms_stay_consistent first_throws).
  - intros h d w' Hw'. exact Hw'.
  - split; [apply NoDup_nil_2|reflexivity].
Defined.

Lemma rooms_replayed_after_reconnect_witness :
  ∃ replayed,
    NoDup replayed ∧ (∀ r, r ∈ replayed ↔ r ∈ ["a"; "b"; "a"])
    ∧ sent (run page_handlers
              ((call_joinAnalysis <$> ["a"; "b"; "a"])
                 ++ [socket_disconnect "transport close"; socket_connect])
              (connected (setupConnectionMonitoring 1 2 initialized)))
      = sent (connected (setupConnectionMonitoring 1 2 initialized))
          ++ (join_analysis <$> ["a"; "b"; "a"]) ++ (join_analysis <$> replayed)
    ∧ isConnected
        (wsManager
           (run page_handlers
              ((call_joinAnalysis <$> ["a"; "b"; "a"])
                 ++ [socket_disconnect "transport close"; socket_connect])
              (connected (setupConnectionMonitoring 1 2 initialized)))) = true
    ∧ reconnectAttempts
        (wsManager
           (run page_handlers
              ((call_joinAnalysis <$> ["a"; "b"; "a"])
                 ++ [socket_disconnect "transport close"; socket_connect])
              (connected (setupConnectionMonitoring 1 2 initialized)))) = 0.
Proof.
  apply (rooms_replayed_after_reconnect page_handlers ["a"; "b"; "a"] "transport close"
           (connected (setupConnectionMonitoring 1 2 initialized))
           {| sock_options := io_options constructor; sock_open := true |});
    try reflexivity;
    intros h Hin d w; apply list_elem_of_singleton in Hin as ->; done.
Defined.

Lemma triggerEvent_ignores_new_handlers_witness :
  (triggerEvent registers_another "tick" PNull three_handlers).2.*1 = [1; 2; 3]
  ∧ ∃ added,
      handlers_of "tick"
        (wsManager (triggerEvent registers_another "tick" PNull three_handlers).1)
      = [1; 2; 3] ++ added.
Proof.
  apply (triggerEvent_ignores_new_handlers registers_another "tick" PNull three_handlers).
  - reflexivity.
  - intros h d w'. unfold registers_another. destruct (decide (h = 1)).
    + exists [9]. simpl. apply WebSocketFacts.handlers_of_on.
    + exists []. simpl. symmetry. apply app_nil_r.
Defined.

Lemma initializeWebSocket_joins_on_connect_witness :
  handlers_of "ws_connected" (wsManager loaded_page) = [1; 7]
  ∧ sent subscribed_page = [join_analysis "job-1"]
  ∧ sent (run page_handlers (reconnections ["transport close"; "ping timeout"])
            subscribed_page)
    = [join_analysis "job-1"; join_analysis "job-1"; join_analysis "job-1";
       join_analysis "job-1"; join_analysis "job-1"].
Proof.
  destruct (initializeWebSocket_joins_on_connect page_handlers 7 "job-1"
              (setupConnectionMonitoring 1 2 (fresh true)))
    as (_ & Hhs & Hfirst & _ & _ & Hlater & _).
  - reflexivity.
  - reflexivity.
  - intros h Hin d w. apply list_elem_of_singleton in Hin as ->. done.
  - intros h Hin d w. apply list_elem_of_singleton in Hin as ->. done.
  - intros d w'. reflexivity.
  - split; [exact Hhs|]. split; [exact Hfirst|].
    destruct (Hlater ["transport close"; "ping timeout"]) as (Hsent & _).
    etrans; [exact Hsent|]. reflexivity.
Defined.

End WebSocketMore.

(** * Further properties of the analysis page *)

Module AnalysisMore.
Import Analysis AnalysisFacts.

Implicit Types (pg : Page) (now : Z).

(** ** [formatTime] *)

(** The character of a decimal digit, and the digit of a character. *)
Definition digit_char (d : Z) : ascii := ascii_of_nat (48 + Z.to_nat d).

Definition digit_value (c : ascii) : option Z :=
  let n := nat_of_ascii c in
  if (48 <=? n)%nat && (n <=? 57)%nat then Some (Z.of_nat n - 48)%Z else None.

(** Reads a five-character [MM:SS] string back. *)
Definition read_time (s : string) : option Z :=
  match s with
  | String a (String b (String c (String d (String e EmptyString)))) =>
      if Ascii.eqb c ":"%char then
        m1 ← digit_value a; m0 ← digit_value b;
        s1 ← digit_value d; s0 ← digit_value e;
        Some ((m1 * 10 + m0) * 60 + s1 * 10 + s0)%Z
      else None
  | _ => None
  end.

(** The text [MM:SS] for [seconds]: the tens and the units of the minutes, a
    colon, the tens and the units of the seconds left over. *)
Definition mm_ss (seconds : Z) : string :=
  String (digit_char (seconds / 60 / 10))
    (String (digit_char ((seconds / 60) mod 10))
       (String ":"%char
          (String (digit_char ((seconds mod 60) / 10))
             (String (digit_char ((seconds mod 60) mod 10)) EmptyString)))).

Lemma formatTime_layout seconds :
  (0 ≤ seconds < 6000)%Z →
  formatTime seconds = mm_ss seconds ∧ read_time (formatTime seconds) = Some seconds.
Proof.
  intros Hrange.
  assert (Forall (λ s, formatTime s = mm_ss s ∧ read_time (formatTime s) = Some s)
            (seqZ 0 6000)) as Hall.
  { eapply bool_decide_unpack. vm_compute. reflexivity. }
  rewrite Forall_forall in Hall. apply Hall, elem_of_seqZ. lia.
Qed.

(** X7. For a duration of less than 100 minutes [formatTime] gives the five
    characters [MM:SS]: two digits for the whole minutes, a colon, two
    digits for the seconds left over, each pair with a leading zero when it
    is below 10. The text reads back as the duration, so that different
    durations give different texts. *)
Theorem formatTime_mm_ss seconds :
  (0 ≤ seconds < 6000)%Z →
  formatTime seconds
  = String (digit_char (seconds / 60 / 10))
      (String (digit_char ((seconds / 60) mod 10))
         (String ":"%char
            (String (digit_char ((seconds mod 60) / 10))
               (String (digit_char ((seconds mod 60) mod 10)) EmptyString))))
  ∧ read_time (formatTime seconds) = Some seconds
  ∧ String.length (formatTime seconds) = 5
  ∧ ∀ seconds', (0 ≤ seconds' < 6000)%Z →
      formatTime seconds = formatTime seconds' → seconds = seconds'.
Proof.
  intros Hrange. destruct (formatTime_layout seconds Hrange) as [Hlayout Hread].
  split_and!.
  - exact Hlayout.
  - exact Hread.
  - by rewrite Hlayout.
  - intros seconds' Hrange' Heq.
    destruct (formatTime_layout seconds' Hrange') as [_ Hread'].
    rewrite Heq, Hread' in Hread. congruence.
Qed.

(** ** [getCurrentStepKey] *)

Lemma prefix_append (a b : string) : String.prefix a (a +:+ b) = true.
Proof.
  induction a as [|c a IH]; [by destruct b|].
  simpl. destruct (ascii_dec c c); [exact IH|congruence].
Qed.

Lemma prefix_split (a s : string) : String.prefix a s = true → ∃ rest, s = a +:+ rest.
Proof.
  revert s. induction a as [|c a IH]; intros s Hprefix; [by exists s|].
  destruct s as [|c' s]; [done|]. simpl in Hprefix.
  destruct (ascii_dec c c') as [->|]; [|done].
  destruct (IH s Hprefix) as [rest ->]. by exists rest.
Qed.

Lemma includes_here (a b : string) : includes (a +:+ b) a = true.
Proof.
  destruct a as [|c a]; [destruct b; reflexivity|].
  pose proof (prefix_append (String c a) b) as Hprefix.
  change (String c a +:+ b) with (String c (a +:+ b)) in *.
  cbn [includes]. by rewrite Hprefix.
Qed.

Lemma includes_inside (before a after : string) :
  includes (before +:+ a +:+ after) a = true.
Proof.
  induction before as [|c before IH]; [exact (includes_here a after)|].
  change (String c before +:+ a +:+ after) with (String c (before +:+ a +:+ after)).
  cbn [includes].
  destruct (String.prefix a (String c (before +:+ a +:+ after))); [done|apply IH].
Qed.

Lemma includes_split (s sub : string) :
  includes s sub = true → ∃ before after, s = before +:+ sub +:+ after.
Proof.
  induction s as [|c s IH]; cbn [includes].
  - destruct (String.prefix sub "") eqn:Hprefix; [|done]. intros _.
    destruct (prefix_split _ _ Hprefix) as [rest ->]. by exists "", rest.
  - destruct (String.prefix sub (String c s)) eqn:Hprefix.
    + intros _. destruct (prefix_split _ _ Hprefix) as [rest ->]. by exists "", rest.
    + intros Hin. destruct (IH Hin) as (before & after & ->).
      by exists (String c before), after.
Qed.

Lemma toLowerCase_append (a b : string) :
  toLowerCase (a +:+ b) = toLowerCase a +:+ toLowerCase b.
Proof. induction a as [|c a IH]; simpl; [done|]. by rewrite IH. Qed.

Lemma lower_char_twice c : lower_char (lower_char c) = lower_char c.
Proof. by destruct c as [[] [] [] [] [] [] [] []]. Qed.

Lemma toLowerCase_twice s : toLowerCase (toLowerCase s) = toLowerCase s.
Proof. induction s as [|c s IH]; simpl; [done|]. by rewrite lower_char_twice, IH. Qed.

(** Whether a catalog entry is recognised in a lower-cased message:
    [lowerMessage.includes(key.replace('_', ' '))
     || lowerMessage.includes(config.name.toLowerCase())]. *)
Definition mentions (lowerMessage : string) (entry : string * StepConfig) : bool :=
  includes lowerMessage (replace_underscore entry.1)
  || includes lowerMessage (toLowerCase (name entry.2)).

Lemma first_step_in_Some lowerMessage steps key :
  first_step_in lowerMessage steps = Some key ↔
  ∃ before config after,
    steps = before ++ (key, config) :: after
    ∧ mentions lowerMessage (key, config) = true
    ∧ Forall (λ entry, mentions lowerMessage entry = false) before.
Proof.
  split.
  - induction steps as [|[k config] steps IH]; simpl; [done|].
    destruct (includes lowerMessage (replace_underscore k)
              || includes lowerMessage (toLowerCase (name config))) eqn:Hk.
    + intros [= <-]. exists [], config, steps. split_and!; [done|done|constructor].
    + intros Hrest. destruct (IH Hrest) as (before & config' & after & -> & Hhit & Hmiss).
      exists ((k, config) :: before), config', after. split_and!; [done|done|].
      by constructor.
  - intros (before & config & after & -> & Hhit & Hmiss).
    induction Hmiss as [|[k c] before Hk Hmiss IH]; simpl.
    + unfold mentions in Hhit. simpl in Hhit. by rewrite Hhit.
    + unfold mentions in Hk. simpl in Hk. by rewrite Hk.
Qed.

Lemma first_step_in_None lowerMessage steps :
  first_step_in lowerMessage steps = None ↔
  Forall (λ entry, mentions lowerMessage entry = false) steps.
Proof.
  induction steps as [|[k config] steps IH]; simpl.
  - split; [constructor|done].
  - destruct (includes lowerMessage (replace_underscore k)
              || includes lowerMessage (toLowerCase (name config))) eqn:Hk.
    + split; [done|]. intros Hall. apply Forall_cons_1 in Hall as [Hhit _].
      unfold mentions in Hhit. simpl in Hhit. congruence.
    + rewrite IH. split.
      * intros Hall. by constructor.
      * intros Hall. by apply Forall_cons_1 in Hall as [_ ?].
Qed.

Lemma getCurrentStepKey_first_step_in message :
  getCurrentStepKey (Some message) = first_step_in (toLowerCase message) ANALYSIS_STEPS.
Proof. by destruct message. Qed.

(** X8. [getCurrentStepKey] answers with nothing for a missing or empty
    message, and otherwise with the key of the first catalog entry, in the
    order of the catalog, whose key (first underscore read as a space) or
    lower-cased display name occurs as a piece of the lower-cased message;
    it answers with nothing exactly when no entry does. So the letter case
    of the message does not matter, and a message that contains, in any
    letter case, the display name of a step or its key with the space is
    always recognised. *)
Theorem getCurrentStepKey_first_match :
  getCurrentStepKey None = None
  ∧ getCurrentStepKey (Some "") = None
  ∧ (∀ s sub, includes s sub = true ↔ ∃ before after, s = before +:+ sub +:+ after)
  ∧ (∀ message key,
       getCurrentStepKey (Some message) = Some key ↔
       ∃ before config after,
         ANALYSIS_STEPS = before ++ (key, config) :: after
         ∧ (includes (toLowerCase message) (replace_underscore key)
            || includes (toLowerCase message) (toLowerCase (name config))) = true
         ∧ Forall (λ entry : string * StepConfig,
                     includes (toLowerCase message) (replace_underscore entry.1) = false
                     ∧ includes (toLowerCase message) (toLowerCase (name entry.2)) = false)
             before)
  ∧ (∀ message,
       getCurrentStepKey (Some message) = None ↔
       Forall (λ entry : string * StepConfig,
                 includes (toLowerCase message) (replace_underscore entry.1) = false
                 ∧ includes (toLowerCase message) (toLowerCase (name entry.2)) = false)
         ANALYSIS_STEPS)
  ∧ (∀ message,
       getCurrentStepKey (Some (toLowerCase message)) = getCurrentStepKey (Some message))
  ∧ (∀ before part after key config,
       (key, config) ∈ ANALYSIS_STEPS →
       toLowerCase part = replace_underscore key
       ∨ toLowerCase part = toLowerCase (name config) →
       is_Some (getCurrentStepKey (Some (before +:+ part +:+ after)))).
Proof.
  assert (∀ lowerMessage (l : list (string * StepConfig)),
    Forall (λ entry, mentions lowerMessage entry = false) l ↔
    Forall (λ entry : string * StepConfig,
              includes lowerMessage (replace_underscore entry.1) = false
              ∧ includes lowerMessage (toLowerCase (name entry.2)) = false) l) as Hmiss.
  { intros lowerMessage l. apply Forall_iff. intros entry. unfold mentions.
    apply orb_false_iff. }
  assert (∀ message, getCurrentStepKey (Some message) = None ↔
            Forall (λ entry, mentions (toLowerCase message) entry = false) ANALYSIS_STEPS)
    as Hnone.
  { intros message. rewrite getCurrentStepKey_first_step_in. apply first_step_in_None. }
  split_and!; [done|done| | | | |].
  - intros s sub. split; [apply includes_split|].
    intros (before & after & ->). apply includes_inside.
  - intros message key.
    rewrite getCurrentStepKey_first_step_in, first_step_in_Some.
    unfold mentions at 1. cbn [fst snd].
    split; intros (before & config & after & Hsplit & Hhit & Hbefore);
      exists before, config, after; split_and!; try done; by apply Hmiss.
  - intros message. rewrite Hnone. apply Hmiss.
  - intros message. by rewrite !getCurrentStepKey_first_step_in, toLowerCase_twice.
  - intros before part after key config Hin Hpart.
    destruct (getCurrentStepKey (Some (before +:+ part +:+ after))) as [k|] eqn:Hkey;
      [by eexists|].
    exfalso. apply Hnone in Hkey. rewrite Forall_forall in Hkey.
    specialize (Hkey _ Hin). unfold mentions in Hkey. apply orb_false_iff in Hkey.
    cbn [fst snd] in Hkey. rewrite !toLowerCase_append in Hkey.
    destruct Hpart as [Hpart|Hpart]; rewrite Hpart, includes_inside in Hkey;
      destruct Hkey; congruence.
Qed.

(** ** Step indicators *)

Lemma catalog_thresholds key config :
  lookup_step key ANALYSIS_STEPS = Some config → (progress config ≤ 100)%N.
Proof.
  unfold ANALYSIS_STEPS. simpl.
  repeat (case_decide; [intros [= <-]; simpl; lia|]). done.
Qed.

(** X9. After [updateStepIndicators] a catalogued step is shown completed
    exactly when the percentage has reached its threshold, and active
    exactly when it has not and the step is the current one, never both; a
    step shown completed stays so for every higher percentage, and at 100
    every catalogued step is completed and none is active, whatever the
    current step. An item named after a property that every object inherits
    ([toString], [constructor], ...) is found in the catalog as well, with
    no threshold: it is never shown completed, its icon for completion is
    hidden, and it is active exactly when it is the current step. Every
    other item is left untouched. *)
Theorem updateStepIndicators_thresholds currentStepKey percentage pg i item :
  step_items pg !! i = Some item →
  ∃ item',
    step_items (updateStepIndicators currentStepKey percentage pg) !! i = Some item'
    ∧ data_step item' = data_step item
    ∧ match lookup_step (data_step item) ANALYSIS_STEPS with
      | Some config =>
          item_completed item' = bool_decide (progress config ≤ percentage)%N
          ∧ item_active item'
            = bool_decide ((percentage < progress config)%N
                           ∧ Some (data_step item) = currentStepKey)
          ∧ (item_completed item' && item_active item' = false)
          ∧ (∀ higher item'',
               (percentage ≤ higher)%N →
               step_items (updateStepIndicators currentStepKey higher pg) !! i
               = Some item'' →
               item_completed item' = true → item_completed item'' = true)
          ∧ ((100 ≤ percentage)%N →
             item_completed item' = true ∧ item_active item' = false)
      | None =>
          if decide (data_step item ∈ Object_prototype) then
            item_completed item' = false
            ∧ item_active item' = bool_decide (Some (data_step item) = currentStepKey)
            ∧ step_complete item' = (λ _, true) <$> step_complete item
          else item' = item
      end.
Proof.
  intros Hi. exists (update_item currentStepKey percentage item).
  assert (∀ p, step_items (updateStepIndicators currentStepKey p pg) !! i
               = Some (update_item currentStepKey p item)) as Hupd.
  { intros p. unfold updateStepIndicators. page_simpl. by rewrite list_lookup_fmap, Hi. }
  split; [apply Hupd|].
  unfold update_item, ANALYSIS_STEPS_at.
  destruct (lookup_step (data_step item) ANALYSIS_STEPS) as [config|] eqn:Hconfig.
  - pose proof (catalog_thresholds _ _ Hconfig) as H100. cbn [reached].
    destruct (N.leb_spec (progress config) percentage) as [Hle|Hlt].
    + cbn [item_completed item_active andb data_step].
      rewrite bool_decide_eq_true_2 by done.
      rewrite bool_decide_eq_false_2 by (intros [? _]; lia).
      split_and!; try done.
      intros higher item'' Hhigher Hi'' _. rewrite Hupd in Hi''.
      injection Hi'' as <-. unfold update_item, ANALYSIS_STEPS_at. rewrite Hconfig.
      cbn [reached].
      destruct (N.leb_spec (progress config) higher); [done|lia].
    + rewrite bool_decide_eq_false_2 by lia.
      case_decide as Hcur; cbn [item_completed item_active andb data_step].
      * rewrite bool_decide_eq_true_2 by done. split_and!; try done. lia.
      * rewrite bool_decide_eq_false_2 by (intros [_ ?]; done).
        split_and!; try done. lia.
  - destruct (decide (data_step item ∈ Object_prototype)) as [Hin|Hout]; [|done].
    cbn [reached].
    case_decide as Hcur; cbn [item_completed item_active step_complete data_step].
    + by rewrite bool_decide_eq_true_2.
    + by rewrite bool_decide_eq_false_2.
Qed.

(** ** Polling *)

Lemma poll_response_session now result pg :
  session (poll_response now result pg).1 = session pg.
Proof.
  destruct result as [data|]; unfold poll_response.
  - destruct (decide (resp_status data = "completed")).
    { apply handleAnalysisComplete_session. }
    destruct (decide (resp_status data = "error")).
    { apply showError_session. }
    destruct (decide (resp_status data = "processing")); [|done].
    apply updateProgress_session.
  - apply showError_session.
Qed.

(** X10. While the server answers with a status other than [completed] and
    [error] (also one the page does not know, such as [queued]) the loop
    goes on: a session sends one request for the tracked analysis at the
    start and one after each response, so one request is in flight at the
    end and none overlaps another. *)
Theorem polling_continues_while_processing responses pg :
  Forall goes_on responses →
  requests (polling_session responses pg)
  = requests pg ++ replicate (S (length responses)) (status_url pg)
  ∧ analysisId (polling_session responses pg) = analysisId pg.
Proof.
  intros Hall. unfold polling_session, startProgressPolling.
  assert (∀ pg0, requests (poll_await responses pg0)
                 = requests pg0 ++ replicate (length responses) (status_url pg0)
                 ∧ session (poll_await responses pg0)
                   = (analysisId pg0,
                      requests pg0 ++ replicate (length responses) (status_url pg0),
                      analysisSocket pg0, startTime pg0)) as Hloop.
  { induction Hall as [|[now result] responses Hgo Hall IH]; intros pg0; simpl.
    - rewrite app_nil_r. done.
    - pose proof (goes_on_again now result pg0 Hgo) as Hagain.
      pose proof (poll_response_session now result pg0) as Hsession.
      destruct (poll_response now result pg0) as [pg1 again]. simpl in *. subst again.
      unfold session in Hsession. injection Hsession as Hid Hreq Hsock Hstart.
      destruct (IH (poll_request pg1)) as [-> ->].
      unfold poll_request, status_url. page_simpl.
      rewrite Hid, Hreq, Hsock, Hstart. rewrite <- !app_assoc. done. }
  destruct (Hloop (poll_request pg)) as [Hreq Hsession].
  unfold session in Hsession. injection Hsession as Hid _ _ _.
  rewrite Hreq, Hid. unfold poll_request, status_url. page_simpl.
  split; [|done]. rewrite <- app_assoc. done.
Qed.

Lemma showError_timers now message pg :
  progressInterval (showError now message pg) = None
  ∧ intervals (showError now message pg) = intervals (stop_time_tracking pg).
Proof.
  unfold showError.
  match goal with |- context [stop_time_tracking ?p] => set (pg2 := p) end.
  assert (progressInterval pg2 = progressInterval pg ∧ intervals pg2 = intervals pg)
    as [Hstored Hrunning] by (subst pg2; split; page_cases).
  assert (∀ pg0 text type duration message0 t,
            progressInterval (showNotification text type duration
                                (addFeedItem t message0 pg0)) = progressInterval pg0
            ∧ intervals (showNotification text type duration
                           (addFeedItem t message0 pg0)) = intervals pg0) as Hkeep.
  { intros. unfold showNotification, addFeedItem. split; page_cases. }
  destruct (Hkeep (stop_time_tracking pg2) (Plain (text_of message)) "error" 5000%Z
              (Some ("ERROR: " +:+ text_of message)) now) as [-> ->].
  unfold stop_time_tracking. rewrite Hstored, Hrunning.
  by destruct (progressInterval pg).
Qed.

(** X11. A status request that fails (no response, or a body that is not
    JSON) ends the polling session at once: the error display shows "Failed
    to get analysis status", the time display is stopped, no timer is set
    and no further request is sent, whatever the server would have answered
    afterwards. *)
Theorem polling_stops_on_failed_request now pg :
  (poll_response now Failed pg).2 = false
  ∧ error_message (poll_response now Failed pg).1
    = (λ _, "Failed to get analysis status") <$> error_message pg
  ∧ error_section (poll_response now Failed pg).1 = (λ _, false) <$> error_section pg
  ∧ progressInterval (poll_response now Failed pg).1 = None
  ∧ intervals (poll_response now Failed pg).1 = intervals (stop_time_tracking pg)
  ∧ requests (poll_response now Failed pg).1 = requests pg
  ∧ ∀ before rest,
      polling_session (before ++ (now, Failed) :: rest) pg
      = polling_session (before ++ [(now, Failed)]) pg.
Proof.
  split_and!; try done.
  - simpl. unfold showError, showNotification, addFeedItem, stop_time_tracking. page_cases.
  - simpl. unfold showError, showNotification, addFeedItem, stop_time_tracking. page_cases.
  - apply showError_timers.
  - apply showError_timers.
  - apply poll_response_requests.
  - intros before rest. unfold polling_session. by apply poll_await_stops.
Qed.

(** X12. Nothing the push channel delivers stops the polling loop: whether
    the loop goes on after a response depends on the response alone, never
    on the page. After a pushed completion or error, a [processing] response
    still sets the progress bar to its percentage and the loop asks again. *)
Theorem polling_ignores_push_terminal now result pg :
  (∀ now' pg', (poll_response now' result pg').2 = (poll_response now result pg).2)
  ∧ ∀ data, result = Response data → resp_status data = "processing" →
      ∀ t analysis_id words error,
        (poll_response now result (on_analysis_complete t analysis_id words pg)).2 = true
        ∧ (poll_response now result (on_analysis_error t analysis_id error pg)).2 = true
        ∧ progress_fill
            (poll_response now result (on_analysis_complete t analysis_id words pg)).1
          = (λ _, Some (default 0%N (resp_progress data))) <$> progress_fill pg
        ∧ progress_fill
            (poll_response now result (on_analysis_error t analysis_id error pg)).1
          = (λ _, Some (default 0%N (resp_progress data))) <$> progress_fill pg.
Proof.
  split.
  - intros now' pg'. destruct result as [data|]; [|done]. unfold poll_response.
    by repeat case_decide.
  - intros data -> Hproc t analysis_id words error.
    assert (∀ pg0, poll_response now (Response data) pg0
              = (updateProgress now (default 0%N (resp_progress data))
                   (Some (or_else (resp_current_step data) "Processing..."))
                   (getCurrentStepKey (resp_current_step data)) pg0, true)) as Hstep.
    { intros pg0. unfold poll_response. rewrite Hproc.
      rewrite !decide_False by done. by rewrite decide_True. }
    rewrite !Hstep. cbn [fst snd].
    rewrite !(proj1 (proj2 (updateProgress_session _ _ _ _ _))).
    unfold on_analysis_complete, on_analysis_error.
    split_and!; try done; case_decide; try done.
    + rewrite (proj1 (proj2 (handleAnalysisComplete_session _ _ _))).
      by destruct (progress_fill pg).
    + by rewrite (proj2 (showError_session _ _ _)).
Qed.

(** ** Completion handled more than once *)

Lemma view_report_updateProgress now p message step pg :
  view_report (updateProgress now p message step pg) = view_report pg.
Proof. unfold updateProgress, updateStepIndicators, addFeedItem. page_cases. Qed.

Lemma view_report_stop_time_tracking pg :
  view_report (stop_time_tracking pg) = view_report pg.
Proof. unfold stop_time_tracking. page_cases. Qed.

Lemma view_report_showNotification text type duration pg :
  view_report (showNotification text type duration pg) = view_report pg.
Proof. unfold showNotification. page_cases. Qed.

Lemma view_report_addFeedItem now message pg :
  view_report (addFeedItem now message pg) = view_report pg.
Proof. unfold addFeedItem. page_cases. Qed.

Lemma view_report_animateCompletion pg :
  view_report (animateCompletion pg) = view_report pg.
Proof. unfold animateCompletion. page_cases. Qed.

Lemma handleAnalysisComplete_view_report now words pg :
  view_report (handleAnalysisComplete now words pg)
  = (λ button, {| display := "inline-flex";
                  click_listeners := S (click_listeners button) |}) <$> view_report pg.
Proof.
  unfold handleAnalysisComplete.
  set (pg3 := showNotification _ _ _ _).
  assert (view_report pg3 = view_report pg) as Hpg3.
  { subst pg3. by rewrite view_report_showNotification, view_report_updateProgress,
      view_report_stop_time_tracking. }
  rewrite view_report_animateCompletion, view_report_addFeedItem, <- Hpg3.
  destruct (view_report pg3) eqn:Hbutton; page_simpl; by rewrite ?Hbutton.
Qed.

(** X13. [handleAnalysisComplete] is not idempotent. Both the push channel
    and the polling loop call it when the analysis completes, and every call
    shows the completion notice again and attaches one more click listener
    to the "view report" button; the bar shows 100 after each. *)
Theorem handleAnalysisComplete_repeated now words (calls : nat) pg :
  view_report (Nat.iter (S calls) (handleAnalysisComplete now words) pg)
  = (λ button, {| display := "inline-flex";
                  click_listeners := S calls + click_listeners button |})
      <$> view_report pg
  ∧ notifications (Nat.iter (S calls) (handleAnalysisComplete now words) pg)
    = (λ shown, shown ++ replicate (S calls)
                           {| notice := Completed words; notice_type := "success";
                              notice_duration := 8000 |}) <$> notifications pg
  ∧ progress_fill (Nat.iter (S calls) (handleAnalysisComplete now words) pg)
    = (λ _, Some 100%N) <$> progress_fill pg.
Proof.
  induction calls as [|calls (IHv & IHn & IHf)].
  - change (Nat.iter 1 (handleAnalysisComplete now words) pg)
      with (handleAnalysisComplete now words pg).
    rewrite handleAnalysisComplete_view_report.
    by destruct (handleAnalysisComplete_session now words pg) as (_ & -> & ->).
  - change (Nat.iter (S (S calls)) (handleAnalysisComplete now words) pg)
      with (handleAnalysisComplete now words
              (Nat.iter (S calls) (handleAnalysisComplete now words) pg)).
    rewrite handleAnalysisComplete_view_report.
    destruct (handleAnalysisComplete_session now words
                (Nat.iter (S calls) (handleAnalysisComplete now words) pg))
      as (_ & -> & ->).
    rewrite IHv, IHn, IHf. split_and!.
    + by destruct (view_report pg).
    + destruct (notifications pg) as [shown|]; [|done]. simpl.
      rewrite <- app_assoc. do 2 f_equal.
      change (?x :: replicate calls ?x) with (replicate (S calls) x).
      by rewrite <- (replicate_S_end (S calls)).
    + by destruct (progress_fill pg).
Qed.

(** ** The time display *)

(** X14. [startTimeTracking] keeps only the identifier of the interval it
    started last. When it is called twice, the start time and the stored
    identifier are those of the second call, and what stops the time display
    ([showError], as [handleAnalysisComplete]) clears the second interval
    only: the first one keeps running. *)
Theorem startTimeTracking_twice start1 id1 start2 id2 now message pg :
  id1 ≠ id2 →
  startTime (startTimeTracking start2 id2 (startTimeTracking start1 id1 pg)) = Some start2
  ∧ progressInterval (startTimeTracking start2 id2 (startTimeTracking start1 id1 pg))
    = Some id2
  ∧ progressInterval
      (showError now message
         (startTimeTracking start2 id2 (startTimeTracking start1 id1 pg))) = None
  ∧ (id1 ∈ intervals
             (showError now message
                (startTimeTracking start2 id2 (startTimeTracking start1 id1 pg))))
  ∧ (id2 ∉ intervals
             (showError now message
                (startTimeTracking start2 id2 (startTimeTracking start1 id1 pg)))).
Proof.
  intros Hne. split_and!; try done.
  - apply showError_timers.
  - rewrite (proj2 (showError_timers _ _ _)).
    unfold stop_time_tracking, startTimeTracking. page_simpl.
    rewrite list_elem_of_filter, !elem_of_app, !list_elem_of_singleton. auto.
  - rewrite (proj2 (showError_timers _ _ _)).
    unfold stop_time_tracking, startTimeTracking. page_simpl.
    rewrite list_elem_of_filter. tauto.
Qed.

(** X15. [restartAnalysis] starts polling again but not the time display:
    it leaves the interval timers and the stored identifier as they are.
    After an error, which stops the time display, a restart therefore leaves
    the elapsed and remaining times without a timer to refresh them, while
    the status requests resume. *)
Theorem restartAnalysis_leaves_clock_stopped now pg :
  progressInterval (restartAnalysis now pg) = progressInterval pg
  ∧ intervals (restartAnalysis now pg) = intervals pg
  ∧ elapsed_time (restartAnalysis now pg) = elapsed_time pg
  ∧ remaining_time (restartAnalysis now pg) = remaining_time pg
  ∧ ∀ t message,
      progressInterval (restartAnalysis now (showError t message pg)) = None
      ∧ requests (restartAnalysis now (showError t message pg))
        = requests pg ++ [status_url pg].
Proof.
  assert (∀ pg0, progressInterval (restartAnalysis now pg0) = progressInterval pg0
                 ∧ intervals (restartAnalysis now pg0) = intervals pg0
                 ∧ elapsed_time (restartAnalysis now pg0) = elapsed_time pg0
                 ∧ remaining_time (restartAnalysis now pg0) = remaining_time pg0
                 ∧ requests (restartAnalysis now pg0) = requests pg0 ++ [status_url pg0])
    as Hframe.
  { intros pg0.
    unfold restartAnalysis, startProgressPolling, poll_request, status_url,
      showNotification.
    split_and!; page_cases. }
  destruct (Hframe pg) as (Hp & Hi & He & Hr & _).
  split_and!; try done.
  intros t message. destruct (Hframe (showError t message pg)) as (-> & _ & _ & _ & ->).
  pose proof (proj1 (showError_session t message pg)) as Hsession.
  unfold session in Hsession. injection Hsession as Hid Hreq _ _.
  unfold status_url. rewrite Hid, Hreq.
  split; [apply showError_timers|done].
Qed.

(** ** Updates without a message *)

(** X16. A progress update that carries no message (or an empty one) still
    sets the bar and appends a feed entry, whose text is then "undefined"
    (or empty), but leaves the step title as it was. *)
Theorem updateProgress_without_message now percentage message step pg :
  truthy message = false →
  current_step_title (updateProgress now percentage message step pg)
  = current_step_title pg
  ∧ progress_fill (updateProgress now percentage message step pg)
    = (λ _, Some percentage) <$> progress_fill pg
  ∧ text_of None = "undefined"
  ∧ ∀ items, analysis_feed pg = Some items → (length items < 50)%nat →
      analysis_feed (updateProgress now percentage message step pg)
      = Some (items ++ [{| feed_timestamp := now; feed_message := text_of message |}]).
Proof.
  intros Hfalsy. split_and!; [| |done|].
  - unfold updateProgress, updateStepIndicators, addFeedItem. rewrite Hfalsy. page_cases.
  - apply updateProgress_session.
  - intros items Hfeed Hlen.
    assert (analysis_feed (updateProgress now percentage message step pg)
            = analysis_feed (addFeedItem now message pg)) as ->.
    { unfold updateProgress, updateStepIndicators, addFeedItem. page_cases. }
    unfold addFeedItem. rewrite Hfeed. page_simpl.
    rewrite length_app. simpl.
    destruct (Nat.ltb_spec 50 (length items + 1)); [lia|done].
Qed.

(** ** Starting to track *)

(** X19. [initializeAnalysisTracking(id)] records the identifier and sends
    the first status request for it in every case. The initial display (0
    percent and the feed entry "Initializing analysis...") is made only on a
    page that has both the progress bar and its label; on a page that lacks
    either, nothing is displayed, but polling starts all the same. *)
Theorem initializeAnalysisTracking_starts now id pg :
  analysisId (initializeAnalysisTracking now id pg) = Some id
  ∧ requests (initializeAnalysisTracking now id pg)
    = requests pg ++ ["/api/analysis_status/" +:+ id]
  ∧ (progress_fill pg = None ∨ progress_percentage pg = None →
     analysis_feed (initializeAnalysisTracking now id pg) = analysis_feed pg
     ∧ progress_fill (initializeAnalysisTracking now id pg) = progress_fill pg
     ∧ progress_percentage (initializeAnalysisTracking now id pg)
       = progress_percentage pg)
  ∧ (is_Some (progress_fill pg) → is_Some (progress_percentage pg) →
     displayed (initializeAnalysisTracking now id pg) = Some 0%N
     ∧ progress_percentage (initializeAnalysisTracking now id pg) = Some "0%"
     ∧ analysis_feed (initializeAnalysisTracking now id pg)
       = analysis_feed (addFeedItem now (Some "Initializing analysis...") pg)).
Proof.
  unfold initializeAnalysisTracking, startProgressPolling, poll_request, status_url.
  split_and!.
  - page_simpl.
    destruct (progress_fill pg), (progress_percentage pg); page_simpl; try done;
      match goal with |- context [updateProgress ?t ?p ?m ?s ?pg0] =>
        pose proof (proj1 (updateProgress_session t p m s pg0)) as Hsession end;
      unfold session in Hsession; injection Hsession as -> _ _ _; done.
  - page_simpl.
    destruct (progress_fill pg), (progress_percentage pg); page_simpl; try done;
      match goal with |- context [updateProgress ?t ?p ?m ?s ?pg0] =>
        pose proof (proj1 (updateProgress_session t p m s pg0)) as Hsession end;
      unfold session in Hsession; injection Hsession as -> -> _ _; done.
  - intros Hnone. page_simpl.
    destruct (progress_fill pg) eqn:Hfill, (progress_percentage pg) eqn:Hlabel;
      page_simpl; rewrite ?Hfill, ?Hlabel; try done.
    by destruct Hnone.
  - intros [width Hfill] [label Hlabel]. page_simpl. rewrite Hfill, Hlabel. page_simpl.
    set (pg1 := set_analysisId (Some id) pg).
    assert (progress_fill pg1 = Some width ∧ progress_percentage pg1 = Some label)
      as [Hfill1 Hlabel1] by done.
    split_and!.
    + unfold displayed. page_simpl.
      rewrite (proj1 (proj2 (updateProgress_session _ _ _ _ _))), Hfill1. done.
    + unfold updateProgress, updateStepIndicators, addFeedItem. page_simpl.
      rewrite Hfill1. page_simpl. rewrite Hlabel1. page_cases.
    + unfold updateProgress, updateStepIndicators, addFeedItem. subst pg1. page_cases.
Qed.

(** ** The length of the feed *)

Lemma addFeedItem_length now message pg items :
  analysis_feed pg = Some items →
  ∃ items',
    analysis_feed (addFeedItem now message pg) = Some items'
    ∧ items' = (if decide (50 ≤ length items)%nat then drop 1 items else items)
               ++ [feed_item (now, message)]
    ∧ length items' = Nat.max (length items) (Nat.min 50 (length items + 1)).
Proof.
  intros Hfeed. unfold addFeedItem, feed_item. rewrite Hfeed. page_simpl.
  eexists. split; [done|]. rewrite length_app. cbn [length].
  destruct (Nat.ltb_spec 50 (length items + 1)) as [Hgt|Hle].
  - rewrite decide_True by lia.
    rewrite (drop_app_le items _ 1) by lia.
    split; [done|]. rewrite length_app, length_drop. cbn [length]. lia.
  - rewrite decide_False by lia. split; [done|]. rewrite length_app. cbn [length]. lia.
Qed.

(** X20. Each append removes at most one entry, the oldest, and only when
    the feed then holds more than 50: a feed of [n] entries holds, after [k]
    appends, [max n (min 50 (n + k))] entries. So a feed that starts with
    more than 50 entries keeps its length and is never cut down to 50. On a
    page without the feed element [addFeedItem] changes nothing. *)
Theorem feed_length_after_appends entries pg items :
  analysis_feed pg = Some items →
  ∃ items',
    analysis_feed (add_feed_items entries pg) = Some items'
    ∧ length items' = Nat.max (length items) (Nat.min 50 (length items + length entries))
    ∧ ∀ now message pg0, analysis_feed pg0 = None → addFeedItem now message pg0 = pg0.
Proof.
  intros Hfeed.
  assert (∃ items',
            analysis_feed (add_feed_items entries pg) = Some items'
            ∧ length items'
              = Nat.max (length items) (Nat.min 50 (length items + length entries)))
    as (items' & Hfeed' & Hlen).
  { revert pg items Hfeed.
    induction entries as [|[now message] entries IH]; intros pg items Hfeed;
      cbn [add_feed_items length].
    - exists items. split; [done|]. lia.
    - destruct (addFeedItem_length now message pg items Hfeed) as (items1 & Hfeed1 & _ & Hlen1).
      destruct (IH _ _ Hfeed1) as (items' & Hfeed' & Hlen').
      exists items'. split; [done|]. lia. }
  exists items'. split_and!; [done|done|].
  intros now message pg0 Hnone. unfold addFeedItem. by rewrite Hnone.
Qed.

(** ** The theorems at concrete pages *)

Lemma formatTime_mm_ss_witness :
  formatTime 3599 = "59:59" ∧ formatTime 61 = "01:01".
Proof.
  split.
  - etrans; [apply (formatTime_mm_ss 3599); lia|]. reflexivity.
  - etrans; [apply (formatTime_mm_ss 61); lia|]. reflexivity.
Defined.

Lemma updateStepIndicators_thresholds_witness :
  ∃ item',
    step_items (updateStepIndicators (Some "avatar_analysis") 12 timeline) !! 1
    = Some item'
    ∧ data_step item' = "avatar_analysis"
    ∧ item_completed item' = false ∧ item_active item' = true.
Proof.
  destruct (updateStepIndicators_thresholds (Some "avatar_analysis") 12 timeline 1
              {| data_step := "avatar_analysis"; item_active := false;
                 item_completed := false; step_pending := Some false;
                 step_active := Some true; step_complete := Some true |})
    as (item' & Hitem & Hkey & Hshown); [reflexivity|].
  exists item'. cbn in Hshown. destruct Hshown as (Hcompleted & Hactive & _).
  split_and!; [exact Hitem|exact Hkey|exact Hcompleted|exact Hactive].
Defined.

Lemma polling_continues_while_processing_witness :
  requests
    (polling_session
       [(1, Response (status_data "queued" None));
        (2, Response (status_data "processing" (Some 20%N)))]%Z tracking)
  = replicate 3 "/api/analysis_status/job-1".
Proof.
  apply (polling_continues_while_processing
           [(1, Response (status_data "queued" None));
            (2, Response (status_data "processing" (Some 20%N)))]%Z tracking).
  repeat constructor; simpl; discriminate.
Defined.

Lemma startTimeTracking_twice_witness :
  1 ∈ intervals
        (showError 9 (Some "timeout")
           (startTimeTracking 5 2 (startTimeTracking 0 1 empty_page))).
Proof.
  apply (startTimeTracking_twice 0 1 5 2 9 (Some "timeout") empty_page). discriminate.
Defined.

Lemma updateProgress_without_message_witness :
  current_step_title (updateProgress 3 40 None None tracking) = current_step_title tracking
  ∧ analysis_feed (updateProgress 3 40 None None tracking)
    = Some [{| feed_timestamp := 3; feed_message := "undefined" |}].
Proof.
  destruct (updateProgress_without_message 3 40 None None tracking)
    as (Htitle & _ & _ & Hfeed); [reflexivity|].
  split; [exact Htitle|].
  apply (Hfeed []); [reflexivity|]. simpl. lia.
Defined.

Lemma feed_length_after_appends_witness :
  ∃ items',
    analysis_feed
      (add_feed_items [(1, Some "a"); (2, Some "b")]%Z
         (set_analysis_feed (Some (full_feed ++ full_feed)) tracking)) = Some items'
    ∧ length items' = 100.
Proof.
  destruct (feed_length_after_appends [(1, Some "a"); (2, Some "b")]%Z
              (set_analysis_feed (Some (full_feed ++ full_feed)) tracking)
              (full_feed ++ full_feed)) as (items' & Hfeed & Hlen & _); [reflexivity|].
  exists items'. split; [exact Hfeed|exact Hlen].
Defined.

End AnalysisMore.

(** * Properties of [debounce] and [throttle] *)

Module MainFacts.
Import Main.

Section Timers.

Context {A : Type}.
Implicit Types (d : Debounced A) (t : Throttled A) (events : list (TimerEvent A)).

(** At most one timer is set, and it is the one [timeout] names. *)
Definition one_timer d : Prop :=
  timers d = [] ∨ ∃ id args, timers d = [(id, args)] ∧ timeout d = Some id.

Lemma executedFunction_one_timer args d :
  one_timer d →
  timers (executedFunction args d) = [(next_timer d, args)]
  ∧ timeout (executedFunction args d) = Some (next_timer d)
  ∧ func_calls (executedFunction args d) = func_calls d.
Proof.
  intros [Hnone|(id & a & Hone & Hid)]; unfold executedFunction; simpl.
  - rewrite Hnone. by destruct (timeout d).
  - rewrite Hone, Hid. simpl. rewrite filter_cons_False by (simpl; tauto). done.
Qed.

Lemma later_one_timer id d :
  one_timer d →
  one_timer (later id d)
  ∧ (timers d = [] → later id d = d)
  ∧ (∀ args, timers d = [(id, args)] →
       timers (later id d) = [] ∧ func_calls (later id d) = func_calls d ++ [args]).
Proof.
  intros [Hnone|(id' & a & Hone & Hid)]; unfold later.
  - rewrite Hnone. simpl. split_and!; [by left|done|done].
  - rewrite Hone. simpl. case_decide as Hsame; simpl.
    + subst id'. rewrite filter_cons_False by (simpl; tauto). simpl.
      split_and!; [left; simpl; by destruct (timeout d)|done|].
      intros args [= <-]. by destruct (timeout d).
    + split_and!; [right; eauto|done|]. intros args [= ? _]. done.
Qed.

Lemma debounce_run_one_timer events d : one_timer d → one_timer (debounce_run events d).
Proof.
  revert d. induction events as [|[args|id] events IH]; intros d Hd; simpl; [done| |].
  - apply IH. right. destruct (executedFunction_one_timer args d Hd) as (-> & -> & _).
    eauto.
  - apply IH. by apply later_one_timer.
Qed.

(** X17. A debounced function called several times in a row, before its
    timer elapses, runs the wrapped function once, when the timer of the
    last call elapses, and with the arguments of that last call; the timers
    of the earlier calls were cleared and never run. This holds in whatever
    state earlier calls and timers left the closure. *)
Theorem debounce_runs_last_call_once events burst last :
  let d := debounce_run events debounce in
  let d' := debounce_run (Called <$> burst ++ [last]) d in
  ∃ id,
    timers d' = [(id, last)]
    ∧ func_calls d' = func_calls d
    ∧ func_calls (later id d') = func_calls d ++ [last]
    ∧ timers (later id d') = []
    ∧ ∀ id', later id' (later id d') = later id d'.
Proof.
  intros d d'.
  assert (one_timer d) as Hd by (apply debounce_run_one_timer; by left).
  assert (∀ calls d0, one_timer d0 →
            one_timer (debounce_run (Called <$> calls) d0)
            ∧ func_calls (debounce_run (Called <$> calls) d0) = func_calls d0) as Hcalls.
  { induction calls as [|a calls IH]; intros d0 Hd0; [done|].
    change (debounce_run (Called <$> a :: calls) d0)
      with (debounce_run (Called <$> calls) (executedFunction a d0)).
    destruct (executedFunction_one_timer a d0 Hd0) as (Ht & Hid & Hf).
    destruct (IH (executedFunction a d0)) as [Hone ->]; [right; eauto|]. done. }
  subst d'. rewrite fmap_app.
  assert (∀ l1 l2 d0, debounce_run (l1 ++ l2) d0
                      = debounce_run l2 (debounce_run l1 d0)) as Happ.
  { induction l1 as [|e l1 IH]; intros l2 d0; simpl; [done|]. apply IH. }
  rewrite Happ. cbn [fmap list_fmap debounce_run debounce_step].
  destruct (Hcalls burst d Hd) as [Hone Hf].
  set (d1 := debounce_run (Called <$> burst) d) in *.
  destruct (executedFunction_one_timer last d1 Hone) as (Ht & Hid & Hf2).
  exists (next_timer d1).
  assert (one_timer (executedFunction last d1)) as Hone2 by (right; eauto).
  destruct (later_one_timer (next_timer d1) _ Hone2) as (Hone3 & _ & Hfire).
  destruct (Hfire last Ht) as [Hempty Hran].
  split_and!; try done.
  - rewrite Hran. congruence.
  - intros id'. by apply later_one_timer.
Qed.

(** X18. A throttled function lets a call through only when none went
    through since its timer last elapsed: the calls made are, in order, some
    of the calls received, starting with the first; a call received
    meanwhile is dropped, not postponed; and the closure never has more than
    one timer set, so at most one call goes through per elapsed timer, plus
    the one that is waiting for its timer. *)
Theorem throttle_lets_one_call_through events :
  throttled_calls (throttle_run events throttle) `sublist_of` called events
  ∧ (throttle_timers (throttle_run events throttle) ≤ 1)%nat
  ∧ (length (throttled_calls (throttle_run events throttle))
     ≤ 1 + length (elapsed events))%nat
  ∧ (∀ args rest, events = Called args :: rest →
       head (throttled_calls (throttle_run events throttle)) = Some args)
  ∧ (∀ args, inThrottle (throttle_run events throttle) = true →
       throttle_run (events ++ [Called args]) throttle = throttle_run events throttle).
Proof.
  (* The closure's variable and its timer agree, in every reachable state. *)
  set (armed t := (inThrottle t = true ∧ throttle_timers t = 1)
                  ∨ (inThrottle t = false ∧ throttle_timers t = 0)).
  assert (∀ events t, armed t →
            armed (throttle_run events t)
            ∧ (∃ more, throttled_calls (throttle_run events t) = throttled_calls t ++ more
                       ∧ more `sublist_of` called events
                       ∧ (length more + (if inThrottle t then 1 else 0)
                          ≤ 1 + length (elapsed events))%nat))
    as Hrun.
  { clear events. induction events as [|[args|id] events IH]; intros t Ht.
    - simpl. split; [done|]. exists []. rewrite app_nil_r.
      split_and!; [done|done|]. simpl. destruct (inThrottle t); lia.
    - simpl. unfold throttled.
      destruct Ht as [[Hin Htm]|[Hin Htm]]; rewrite Hin.
      + destruct (IH t) as (Harmed & more & -> & Hsub & Hlen); [by left|].
        split; [done|]. exists more. split_and!; [done| |].
        * unfold called. simpl. by apply sublist_cons.
        * rewrite Hin in Hlen. done.
      + match goal with |- context [throttle_run events ?t1] =>
          destruct (IH t1) as (Harmed & more & -> & Hsub & Hlen);
            [left; simpl; by rewrite Htm|] end.
        split; [done|]. simpl in *. exists (args :: more).
        split_and!; [by rewrite <- app_assoc| |].
        * unfold called. simpl. by apply sublist_skip.
        * unfold elapsed in *. simpl in *. lia.
    - simpl. unfold throttle_elapsed.
      destruct Ht as [[Hin Htm]|[Hin Htm]]; rewrite Htm.
      + match goal with |- context [throttle_run events ?t1] =>
          destruct (IH t1) as (Harmed & more & -> & Hsub & Hlen); [by right|] end.
        split; [done|]. simpl in *. exists more. split_and!; [done|done|].
        rewrite Hin. unfold elapsed in *. simpl in *. lia.
      + destruct (IH t) as (Harmed & more & -> & Hsub & Hlen); [by right|].
        split; [done|]. exists more. split_and!; [done|done|].
        unfold elapsed in *. simpl in *. rewrite Hin in *. lia. }
  assert (armed throttle) as Hinit by (by right).
  destruct (Hrun events throttle Hinit) as (Harmed & more & Hcalls & Hsub & Hlen).
  simpl in Hcalls, Hlen. subst more.
  split_and!.
  - done.
  - destruct Harmed as [[_ ->]|[_ ->]]; lia.
  - lia.
  - intros args rest ->. simpl.
    match goal with |- context [throttle_run rest ?t1] =>
      destruct (Hrun rest t1) as (_ & more' & -> & _); [by left|] end.
    done.
  - intros args Hin.
    assert (∀ l1 l2 t0, throttle_run (l1 ++ l2) t0
                        = throttle_run l2 (throttle_run l1 t0)) as Happ.
    { induction l1 as [|e l1 IH]; intros l2 t0; simpl; [done|]. apply IH. }
    rewrite Happ. simpl. unfold throttled. by rewrite Hin.
Qed.

End Timers.

End MainFacts.
